(** * Calculate.py: price parsing, inflation lookup, compounding projection

    A shallow embedding of [src/Calculate.py]: the price parser
    [_parse_price] with its regular expression, the World Bank lookup
    [get_inflation_from_worldbank] with its process-wide cache, the projector
    [_project_price_over_months], [forecast_price], and the forecasting loop
    of [main].

    Modelling conventions.
    - A Python [str] is a list of Unicode code points.
    - Exceptions are explicit: a computation returns [Ok v] or [Raise e];
      [try ... except Exception] is [try_except].
    - Python floats are a parameter.  [Floats] gives the type of floats and
      the conversions into it: [float()] of a decimal numeral, which rounds
      to the nearest float, and the conversion of an [int], which raises
      [OverflowError] beyond the range.  [Arithmetic] gives the operations the
      projector uses; a power may raise [OverflowError], and a negative base
      raised to a fractional power is a [complex], which [round] rejects.
      What is proved for every [Arithmetic] holds for the arithmetic of the
      interpreter.  There are two instances: [binary64], the conversions of
      IEEE 754 double precision, and [exact], arithmetic on real numbers
      without rounding and without overflow, for which the shape of a series
      is proved.
    - The Unicode tables Python consults (decimal digits, case mapping) are
      a parameter, see [Unicode].
    - Integers are unbounded; a conversion between [int] and [str] raises
      [ValueError] above 4300 digits, as the interpreter does. *)

From Stdlib Require Import ZArith NArith QArith Qabs Reals Lra Lia List String Ascii.
From Stdlib Require SpecFloat.
From stdpp Require Import base option list gmap.
Import ListNotations.

(** ** Exceptions *)

Inductive exn : Set :=
| ValueError | TypeError | AttributeError | KeyError | IndexError
| OverflowError | RequestException.

Inductive result (A : Type) : Type :=
| Ok (a : A)
| Raise (e : exn).
Arguments Ok {A} a.
Arguments Raise {A} e.

Definition bind {A B} (c : result A) (f : A -> result B) : result B :=
  match c with Ok a => f a | Raise e => Raise e end.

(** [try: c  except Exception: h] *)
Definition try_except {A} (c : result A) (h : result A) : result A :=
  match c with Ok a => Ok a | Raise _ => h end.

Declare Scope py_scope.
Delimit Scope py_scope with py.
Notation "'let*' x ':=' c 'in' k" := (bind c (fun x => k))
  (at level 10, x name, c at level 100, k at level 200, only parsing)
  : py_scope.
Open Scope py_scope.

(** ** Text *)

Definition char := N.
Definition str := list char.

(** An ASCII literal as a Python string. *)
Definition lit (s : string) : str := map N_of_ascii (list_ascii_of_string s).

Definition ch (a : ascii) : char := N_of_ascii a.
Arguments ch : simpl never.

Definition NBSP : char := 160%N.
Definition SPACE : char := 32%N.

(** [str.isspace] for one character, which is also [\s] of a Unicode
    pattern: the whitespace table of CPython. *)
Definition is_space (c : char) : bool :=
  ((9 <=? c) && (c <=? 13) || (28 <=? c) && (c <=? 32)
   || (c =? 133) || (c =? 160) || (c =? 5760)
   || (8192 <=? c) && (c <=? 8202)
   || (c =? 8232) || (c =? 8233) || (c =? 8239) || (c =? 8287)
   || (c =? 12288))%N.

(** The whitespace [int()] skips around the digits: that of [str.strip]
    without the four separators U+001C to U+001F. *)
Definition is_int_space (c : char) : bool :=
  (is_space c && negb ((28 <=? c) && (c <=? 31)))%N.

(** [[A-Za-z]] *)
Definition is_letter (c : char) : bool :=
  ((65 <=? c) && (c <=? 90) || (97 <=? c) && (c <=? 122))%N.

(** [[\$¥£€₺﷼]] *)
Definition is_symbol (c : char) : bool :=
  ((c =? 36) || (c =? 165) || (c =? 163) || (c =? 8364) || (c =? 8378)
   || (c =? 65020))%N.

(** Value of an ASCII digit. *)
Definition ascii_decimal (c : char) : option N :=
  if ((48 <=? c) && (c <=? 57))%N then Some (c - 48)%N else None.

(** The Unicode tables of the interpreter.  [decimal c] is the digit value
    of a character of category Nd ([\d], and the digits [float] and [int]
    accept); [upper] and [lower] are [str.upper] and [str.lower].  On the
    ASCII range the digits are 0 to 9. *)
Class Unicode : Type := {
  decimal : char -> option N;
  upper : str -> str;
  lower : str -> str;
  decimal_ascii : forall c, (c < 128)%N -> decimal c = ascii_decimal c
}.

Definition ascii_upper (c : char) : char :=
  if ((97 <=? c) && (c <=? 122))%N then (c - 32)%N else c.
Definition ascii_lower (c : char) : char :=
  if ((65 <=? c) && (c <=? 90))%N then (c + 32)%N else c.

(** The tables restricted to Basic Latin, for running the program on
    ASCII text. *)
Definition basic_latin : Unicode :=
  {| decimal := ascii_decimal;
     upper := map ascii_upper;
     lower := map ascii_lower;
     decimal_ascii := fun _ _ => eq_refl |}.

(** [str.strip()] *)
Fixpoint lstrip (s : str) : str :=
  match s with
  | c :: t => if is_space c then lstrip t else s
  | [] => []
  end.
Definition strip (s : str) : str := rev (lstrip (rev (lstrip s))).

(** The same with the whitespace of [int()]. *)
Fixpoint int_lstrip (s : str) : str :=
  match s with
  | c :: t => if is_int_space c then int_lstrip t else s
  | [] => []
  end.
Definition int_strip (s : str) : str :=
  rev (int_lstrip (rev (int_lstrip s))).

(** [s.replace(a, b)] for single characters, [s.replace(a, '')]. *)
Definition replace_char (a b : char) (s : str) : str :=
  map (fun c => if (c =? a)%N then b else c) s.
Definition remove_char (a : char) (s : str) : str :=
  List.filter (fun c => negb (c =? a)%N) s.

(** Decimal rendering of an integer. *)
Fixpoint uint_chars (d : Decimal.uint) : str :=
  match d with
  | Decimal.Nil => []
  | Decimal.D0 d => ch "0" :: uint_chars d
  | Decimal.D1 d => ch "1" :: uint_chars d
  | Decimal.D2 d => ch "2" :: uint_chars d
  | Decimal.D3 d => ch "3" :: uint_chars d
  | Decimal.D4 d => ch "4" :: uint_chars d
  | Decimal.D5 d => ch "5" :: uint_chars d
  | Decimal.D6 d => ch "6" :: uint_chars d
  | Decimal.D7 d => ch "7" :: uint_chars d
  | Decimal.D8 d => ch "8" :: uint_chars d
  | Decimal.D9 d => ch "9" :: uint_chars d
  end.

Definition int_chars (n : Z) : str :=
  match Z.to_int n with
  | Decimal.Pos d => uint_chars d
  | Decimal.Neg d => ch "-" :: uint_chars d
  end.

(** [sys.get_int_max_str_digits()], the default of the interpreter. *)
Definition MAX_STR_DIGITS : Z := 4300.

(** [str(n)]: [ValueError] for an integer of more than 4300 digits. *)
Definition str_of_int (n : Z) : result str :=
  if (10 ^ MAX_STR_DIGITS <=? Z.abs n)%Z then Raise ValueError
  else Ok (int_chars n).

(** ** Values of a product record

    A field of a product record holds text, an integer, a float or [None]
    (an empty spreadsheet cell).  The program looks at a float only through
    [str], [int] and its truth value, so a float is given by these three. *)

Record float_view : Type := {
  f_str : str;
  f_int : result Z;
  f_true : bool
}.

Inductive value : Type :=
| VNone
| VStr (s : str)
| VInt (n : Z)
| VFloat (f : float_view).

(** [str(v)] *)
Definition py_str (v : value) : result str :=
  match v with
  | VNone => Ok (lit "None")
  | VStr s => Ok s
  | VInt n => str_of_int n
  | VFloat f => Ok (f_str f)
  end.

Definition truthy (v : value) : bool :=
  match v with
  | VNone => false
  | VStr s => match s with [] => false | _ => true end
  | VInt n => negb (n =? 0)%Z
  | VFloat f => f_true f
  end.

(** ** Regular expressions

    The fragment of [re] that [_price_pattern] uses, with the backtracking
    order of the engine: a greedy quantifier tries the longest repetition
    first, an optional part is tried before it is skipped, and a group that
    takes no part in the match stays [None]. *)

Inductive regex : Type :=
| Set_ (p : char -> bool)
| Cat (r1 r2 : regex)
| Opt (r : regex)
| Star (p : char -> bool)
| Plus (p : char -> bool)
| Times (n : nat) (p : char -> bool)
| Group (i : nat) (r : regex).

Definition groups := list (option str).

Section Matcher.
Context {A : Type}.

Fixpoint star (p : char -> bool) (s : str) (g : groups)
    (k : str -> groups -> option A) : option A :=
  match s with
  | c :: t =>
      if p c then
        match star p t g k with
        | Some a => Some a
        | None => k s g
        end
      else k s g
  | [] => k s g
  end.

Fixpoint times (n : nat) (p : char -> bool) (s : str) (g : groups)
    (k : str -> groups -> option A) : option A :=
  match n with
  | O => k s g
  | S n' =>
      match s with
      | c :: t => if p c then times n' p t g k else None
      | [] => None
      end
  end.

(** [exec r s g k]: match [r] at the start of [s] with the groups [g]
    set so far, and hand what is left to the continuation [k]; when [k]
    fails the next alternative of [r] is tried. *)
Fixpoint exec (r : regex) (s : str) (g : groups)
    (k : str -> groups -> option A) : option A :=
  match r with
  | Set_ p =>
      match s with
      | c :: t => if p c then k t g else None
      | [] => None
      end
  | Cat r1 r2 => exec r1 s g (fun s' g' => exec r2 s' g' k)
  | Opt r =>
      match exec r s g k with
      | Some a => Some a
      | None => k s g
      end
  | Star p => star p s g k
  | Plus p =>
      match s with
      | c :: t => if p c then star p t g k else None
      | [] => None
      end
  | Times n p => times n p s g k
  | Group i r =>
      exec r s g (fun s' g' =>
        k s' (<[i := Some (take (length s - length s') s)]> g'))
  end.
End Matcher.

(** [pattern.search(s)] for a pattern of [n] groups: the match at the
    leftmost position that has one, as the list of its groups (group [i] at
    index [i]). *)
Fixpoint search (r : regex) (n : nat) (s : str) : option groups :=
  match exec r s (replicate (S n) None) (fun _ g => Some g) with
  | Some g => Some g
  | None =>
      match s with
      | [] => None
      | _ :: t => search r n t
      end
  end.

(** [m.group(i)] *)
Definition group (g : groups) (i : nat) : option str :=
  match g !! i with
  | Some x => x
  | None => None
  end.

(** What a match of [r] is, whatever the order the engine tries them in:
    [matches r s g s' g'] when [r] can consume a prefix of [s], leaving [s'],
    and turn the groups [g] into [g']. *)
Inductive matches : regex -> str -> groups -> str -> groups -> Prop :=
| matches_set p c t g :
    p c = true -> matches (Set_ p) (c :: t) g t g
| matches_cat r1 r2 s g s1 g1 s2 g2 :
    matches r1 s g s1 g1 -> matches r2 s1 g1 s2 g2 ->
    matches (Cat r1 r2) s g s2 g2
| matches_opt_taken r s g s' g' :
    matches r s g s' g' -> matches (Opt r) s g s' g'
| matches_opt_skipped r s g :
    matches (Opt r) s g s g
| matches_star p x s g :
    Forall (fun c => p c = true) x -> matches (Star p) (x ++ s) g s g
| matches_plus p c x s g :
    p c = true -> Forall (fun c => p c = true) x ->
    matches (Plus p) (c :: x ++ s) g s g
| matches_times p x s g :
    Forall (fun c => p c = true) x ->
    matches (Times (length x) p) (x ++ s) g s g
| matches_group i r s g s' g' :
    matches r s g s' g' ->
    matches (Group i r) s g s'
      (<[i := Some (take (length s - length s') s)]> g').

(** ** Floats

    The floats of the interpreter, as far as the program is concerned: their
    type and the two conversions into it. *)

Class Floats : Type := {
  float : Type;
  (** [float(s)] for a decimal numeral [s] without an exponent, given by
      its sign and its magnitude: the float nearest to the number, an
      infinity beyond the range *)
  float_of_decimal : bool -> Q -> float;
  (** the float of an [int], which [n / 100.0] and [x ** n] convert to
      first; [None] stands for [OverflowError] *)
  float_of_int : Z -> option float
}.

Section Numbers.
Context {FL : Floats}.

(** The floats [1.0] and [100.0]. *)
Definition one : float := float_of_decimal false 1.
Definition hundred : float := float_of_decimal false 100.

(** The float of a number written in a JSON text with a fraction or an
    exponent. *)
Definition float_of_number (q : Q) : float :=
  float_of_decimal (Qnum q <? 0)%Z (Qabs q).

(** What float arithmetic returns: a float, or a [complex] for a negative
    base raised to a fractional power.  Everything computed from a [complex]
    is one. *)
Inductive number : Type :=
| Float (x : float)
| Complex.

End Numbers.

(** IEEE 754 double precision: 53 bits of precision, exponents below 1024.
    The quotient of two integers and an integer itself are rounded to the
    nearest float, ties to the even one; what lies beyond the largest float
    after rounding is an infinity for [float()] and an [OverflowError] for
    the conversion of an [int]. *)
Definition b64_of_decimal (neg : bool) (q : Q) : SpecFloat.spec_float :=
  match Z.abs (Qnum q) with
  | Zpos n =>
      SpecFloat.SFdiv 53 1024 (SpecFloat.S754_finite neg n 0)
        (SpecFloat.S754_finite false (Qden q) 0)
  | _ => SpecFloat.S754_zero neg
  end.

Definition b64_of_int (n : Z) : option SpecFloat.spec_float :=
  match SpecFloat.binary_normalize 53 1024 n 0 false with
  | SpecFloat.S754_infinity _ => None
  | x => Some x
  end.

Definition binary64 : Floats :=
  {| float := SpecFloat.spec_float;
     float_of_decimal := b64_of_decimal;
     float_of_int := b64_of_int |}.

(** Real numbers as floats: no rounding, no overflow. *)
Definition exact_floats : Floats :=
  {| float := R;
     float_of_decimal := fun neg q => if neg then (- Q2R q)%R else Q2R q;
     float_of_int := fun n => Some (IZR n) |}.

(** ** The price parser *)

Section Parser.
Context {U : Unicode} {FL : Floats}.

(** [\d] *)
Definition is_digit (c : char) : bool :=
  match decimal c with Some _ => true | None => false end.

(** [[-+\d,.]] *)
Definition is_numeric (c : char) : bool :=
  (c =? ch "-")%N || (c =? ch "+")%N || is_digit c || (c =? ch ",")%N
  || (c =? ch ".")%N.

(** [_price_pattern]:
    [([A-Za-z]{3})?\s*([\$¥£€₺﷼]?)([-+\d,.]+)\s*([A-Za-z]{3})?] *)
Definition _price_pattern : regex :=
  Cat (Opt (Group 1 (Times 3 is_letter)))
 (Cat (Star is_space)
 (Cat (Group 2 (Opt (Set_ is_symbol)))
 (Cat (Group 3 (Plus is_numeric))
 (Cat (Star is_space)
      (Opt (Group 4 (Times 3 is_letter))))))).

(** The longest prefix of decimal digits, as digit values, and the rest. *)
Fixpoint span_digits (s : str) : list N * str :=
  match s with
  | c :: t =>
      match decimal c with
      | Some d => let '(ds, r) := span_digits t in (d :: ds, r)
      | None => ([], s)
      end
  | [] => ([], [])
  end.

Definition digits_value (ds : list N) : N :=
  fold_left (fun a d => (10 * a + d)%N) ds 0%N.

(** The magnitude of the decimal [ip.fp], exactly. *)
Definition decimal_number (ip fp : list N) : Q :=
  Qmake (Z.of_N (digits_value (ip ++ fp)))
        (Z.to_pos (10 ^ Z.of_nat (length fp))).

(** [float(s)] on the text that reaches it in this program: an optional
    sign, digits, at most one dot, and at least one digit.  The other forms
    [float] accepts (exponent, underscores, [inf], [nan], surrounding
    whitespace) need a character outside of [[-+\d.]], which neither the
    matched token nor the stripped fallback text contains (lemmas
    [token_alphabet] and [cleaned_alphabet]); on any other character this
    function raises, which is all that is claimed of it. *)
Definition py_float (s : str) : result float :=
  let '(neg, s1) :=
    match s with
    | c :: t =>
        if (c =? ch "-")%N then (true, t)
        else if (c =? ch "+")%N then (false, t)
        else (false, s)
    | [] => (false, s)
    end in
  let '(ip, s2) := span_digits s1 in
  match s2 with
  | [] =>
      match ip with
      | [] => Raise ValueError
      | _ => Ok (float_of_decimal neg (decimal_number ip []))
      end
  | c :: s3 =>
      if (c =? ch ".")%N then
        let '(fp, s4) := span_digits s3 in
        match s4, ip ++ fp with
        | [], _ :: _ => Ok (float_of_decimal neg (decimal_number ip fp))
        | _, _ => Raise ValueError
        end
      else Raise ValueError
  end.

(** [CURRENCY_SYMBOLS] *)
Definition CURRENCY_SYMBOLS : list (str * str) :=
  [ (lit "USD", [36%N]); (lit "EUR", [8364%N]); (lit "GBP", [163%N]);
    (lit "JPY", [165%N]); (lit "TRY", [8378%N]); (lit "IRR", [65020%N]);
    (lit "SEK", lit "kr"); ([], []) ].

(** [d.get(k, default)] *)
Definition dict_get (d : list (str * str)) (k : str) (default : str) : str :=
  match List.find (fun kv => bool_decide (fst kv = k)) d with
  | Some kv => snd kv
  | None => default
  end.

(** [x or y] where [x] may be [None] and [y] is a string. *)
Definition or_else (x : option str) (y : str) : str :=
  match x with
  | Some (c :: t) => c :: t
  | _ => y
  end.

(** [re.sub(r"[^0-9.-]", "", s)] keeps these characters. *)
Definition is_plain_numeric (c : char) : bool :=
  ((48 <=? c) && (c <=? 57) || (c =? ch ".") || (c =? ch "-"))%N.

Definition _parse_price (price_str : value) (default_currency : str)
    : result (option (float * str * str)) :=
  match price_str with
  | VNone => Ok None
  | _ =>
      let* text := py_str price_str in
      let s := strip text in
      let s := replace_char NBSP SPACE s in
      match search _price_pattern 4 s with
      | None =>
          let cleaned := List.filter is_plain_numeric s in
          try_except
            (let* x := py_float cleaned in
             Ok (Some (x, dict_get CURRENCY_SYMBOLS default_currency [],
                       default_currency)))
            (Ok None)
      | Some m =>
          let gcode1 := group m 1 in
          let gsym := group m 2 in
          let gnum := group m 3 in
          let gcode2 := group m 4 in
          let currency_code := or_else gcode1 (or_else gcode2 default_currency) in
          let* num := match gnum with
                      | Some t => Ok (remove_char (ch ",") t)
                      | None => Raise AttributeError
                      end in
          let* number :=
            try_except
              (let* x := py_float num in Ok (Some x))
              (try_except
                 (let* x := py_float (remove_char SPACE num) in Ok (Some x))
                 (Ok None)) in
          match number with
          | None => Ok None
          | Some number =>
              let symbol :=
                dict_get CURRENCY_SYMBOLS (upper currency_code)
                  (or_else gsym (dict_get CURRENCY_SYMBOLS default_currency []))
              in
              Ok (Some (number, symbol, upper currency_code))
          end
      end
  end.

End Parser.

(** ** The projector *)

(** [range(n)] *)
Definition range (n : Z) : list Z := map Z.of_nat (seq 0 (Z.to_nat n)).

(** [[f(m) for m in l]], where [f] may raise. *)
Fixpoint comprehension {A B} (f : A -> result B) (l : list A)
    : result (list B) :=
  match l with
  | [] => Ok []
  | a :: t =>
      let* b := f a in
      let* bs := comprehension f t in
      Ok (b :: bs)
  end.

(** The float operations of the projector.  [root12 b] is
    [b ** (1 / 12.0)], a [complex] exactly when [b] is a finite number below
    zero; [pow_nat x m] is [x ** m] for an [int] [m >= 0], [None] standing
    for [OverflowError], which the interpreter raises when the power lies
    beyond the largest float or [m] has no float; [fround2 x] is
    [round(x, 2)].  The laws are those of the interpreter: [x ** 0] is [1.0]
    for every [x], and [x * 1.0] is [x]. *)
Class Arithmetic {FL : Floats} : Type := {
  fadd : float -> float -> float;
  fsub : float -> float -> float;
  fmul : float -> float -> float;
  fdiv : float -> float -> float;
  finite_negative : float -> bool;
  root12 : float -> number;
  pow_nat : float -> nat -> option float;
  fround2 : float -> float;
  root12_complex :
    forall b, root12 b = Complex <-> finite_negative b = true;
  pow_nat_0 : forall x, pow_nat x 0 = Some one;
  fmul_one : forall x, fmul x one = x
}.

Section Projection.
Context {FL : Floats} {AR : Arithmetic}.

Definition num_add (a : float) (x : number) : number :=
  match x with Float x => Float (fadd a x) | Complex => Complex end.
Definition num_sub (x : number) (a : float) : number :=
  match x with Float x => Float (fsub x a) | Complex => Complex end.
Definition num_mul (a : float) (x : number) : number :=
  match x with Float x => Float (fmul a x) | Complex => Complex end.

(** [x ** m] for an integer [m >= 0].  The power of a [complex] is taken
    for the first month only, [m = 0], where it is a [complex] again: the
    rounding of that month raises. *)
Definition num_pow (x : number) (m : nat) : result number :=
  match x with
  | Float x =>
      match pow_nat x m with
      | Some y => Ok (Float y)
      | None => Raise OverflowError
      end
  | Complex => Ok Complex
  end.

(** [round(x, 2)] *)
Definition py_round2 (x : number) : result float :=
  match x with
  | Float x => Ok (fround2 x)
  | Complex => Raise TypeError
  end.

Definition _project_price_over_months (start_price : float)
    (annual_inflation_pct : option float) (months : Z)
    : result (option (list float)) :=
  match annual_inflation_pct with
  | None => Ok None
  | Some pct =>
      let monthly_rate :=
        num_sub (root12 (fadd one (fdiv pct hundred))) one in
      let* prices :=
        comprehension
          (fun m =>
             let* power :=
               num_pow (num_add one monthly_rate) (Z.to_nat m) in
             py_round2 (num_mul start_price power))
          (range (months + 1)) in
      Ok (Some prices)
  end.

End Projection.

(** ** Exact arithmetic

    The operations on real numbers: nothing is rounded but by [round], and
    no power overflows. *)

(** [b ** (1 / 12.0)] *)
Definition twelfth_root (b : R) : @number exact_floats :=
  if Rlt_dec b 0 then Complex
  else if Req_dec_T b 0 then @Float exact_floats 0%R
  else @Float exact_floats (Rpower b (/ 12)).

(** Nearest integer, ties to the even one. *)
Definition round_half_even (x : R) : Z :=
  let n := Int_part x in
  let f := (x - IZR n)%R in
  if Rlt_dec f (1 / 2) then n
  else if Rlt_dec (1 / 2) f then (n + 1)%Z
  else if Z.even n then n else (n + 1)%Z.

Definition round2 (x : R) : R := (IZR (round_half_even (x * 100)) / 100)%R.

Definition exact : @Arithmetic exact_floats.
Proof.
  refine (@Build_Arithmetic exact_floats Rplus Rminus Rmult Rdiv
            (fun b => if Rlt_dec b 0 then true else false)
            twelfth_root (fun x m => Some (x ^ m)%R) round2 _ _ _).
  - intros b. unfold twelfth_root.
    destruct (Rlt_dec b 0); [tauto|].
    destruct (Req_dec_T b 0); split; discriminate.
  - intros x. unfold one. simpl. f_equal. unfold Q2R. simpl. lra.
  - intros x. unfold one. simpl. unfold Q2R. simpl. lra.
Defined.

(** ** JSON data of the World Bank answer

    A decoded JSON text.  A number written as an integer is an [int] for
    Python, [JInt]; a number written with a fraction or an exponent is a
    float, [JNum], given by the number that is written, whose float is the
    nearest one. *)

#[local] Unset Elimination Schemes.
Inductive json : Type :=
| JNull
| JBool (b : bool)
| JInt (n : Z)
| JNum (q : Q)
| JStr (s : str)
| JArr (l : list json)
| JObj (kvs : list (str * json)).
#[local] Set Elimination Schemes.

Section Forecast.
Context {U : Unicode} {FL : Floats} {AR : Arithmetic}.

(** The float of an [int] operand of [/] or [**]. *)
Definition int_to_float (n : Z) : result float :=
  match float_of_int n with
  | Some x => Ok x
  | None => Raise OverflowError
  end.

(** The float a JSON value is when it is divided by [100.0]: [None] stays
    [None], an [int] (a [bool] is one) is converted and may be too large,
    anything that is not a number raises [TypeError]. *)
Definition as_percent (v : json) : result (option float) :=
  match v with
  | JNull => Ok None
  | JNum q => Ok (Some (float_of_number q))
  | JInt n => let* x := int_to_float n in Ok (Some x)
  | JBool b => let* x := int_to_float (if b then 1 else 0)%Z in Ok (Some x)
  | _ => Raise TypeError
  end.

(** Digits of [int(s)]: a digit, then digits with single underscores
    between them; [ValueError] for more than 4300 digits. *)
Fixpoint int_digits (s : str) (acc : N) : option N :=
  match s with
  | c :: t =>
      match decimal c with
      | Some d =>
          let acc' := (10 * acc + d)%N in
          match t with
          | [] => Some acc'
          | u :: t' =>
              if (u =? ch "_")%N then int_digits t' acc'
              else int_digits t acc'
          end
      | None => None
      end
  | [] => None
  end.

Definition int_of_str (s : str) : result Z :=
  let '(neg, s1) :=
    match int_strip s with
    | c :: t =>
        if (c =? ch "-")%N then (true, t)
        else if (c =? ch "+")%N then (false, t)
        else (false, c :: t)
    | [] => (false, [])
    end in
  match int_digits s1 0%N with
  | Some n =>
      let digits := List.filter (fun c => negb (c =? ch "_")%N) s1 in
      if (MAX_STR_DIGITS <? Z.of_nat (length digits))%Z then Raise ValueError
      else Ok (if neg then (- Z.of_N n)%Z else Z.of_N n)
  | None => Raise ValueError
  end.

(** [int(v)] *)
Definition py_int (v : value) : result Z :=
  match v with
  | VNone => Raise TypeError
  | VInt n => Ok n
  | VFloat f => f_int f
  | VStr s => int_of_str s
  end.

(** [prices[-1]] *)
Definition last_item (prices : list float) : result float :=
  match last prices with
  | Some x => Ok x
  | None => Raise IndexError
  end.

Definition forecast_price (current_price : value) (inflation_rate : json)
    (months : value) (default_currency : str)
    : result (option (float * list float * str)) :=
  let* parsed := _parse_price current_price default_currency in
  match parsed with
  | None => Ok None
  | Some (number, symbol, code) =>
      let* months := try_except (py_int months) (Ok 0%Z) in
      let* pct := as_percent inflation_rate in
      let* prices := _project_price_over_months number pct months in
      match prices with
      | None => Ok None
      | Some prices =>
          let* final_price := last_item prices in
          Ok (Some (final_price, prices,
                    match symbol with
                    | [] => dict_get CURRENCY_SYMBOLS code []
                    | _ => symbol
                    end))
      end
  end.

End Forecast.

(** ** The inflation lookup and its cache

    The process-wide state: the dictionary [_inflation_cache], and the log of
    the country codes that were sent to the World Bank.  A cached pair holds
    [JNull] for Python's [None]. *)

Record world : Type := {
  _inflation_cache : gmap str (json * json);
  requests : list str
}.

(** [d[k]] of a decoded JSON object: the last binding of the key wins. *)
Definition obj_get (kvs : list (str * json)) (k : str) : option json :=
  fold_left (fun acc kv => if bool_decide (fst kv = k) then Some (snd kv)
                           else acc) kvs None.

(** Keys of a decoded JSON object in insertion order. *)
Fixpoint dict_keys (kvs : list (str * json)) (seen : list str) : list str :=
  match kvs with
  | [] => []
  | kv :: t =>
      if bool_decide (fst kv ∈ seen) then dict_keys t seen
      else fst kv :: dict_keys t (fst kv :: seen)
  end.

(** What [for entry in x] runs over. *)
Definition iterate (x : json) : result (list json) :=
  match x with
  | JArr l => Ok l
  | JObj kvs => Ok (map JStr (dict_keys kvs []))
  | JStr s => Ok (map (fun c => JStr [c]) s)
  | _ => Raise TypeError
  end.

(** [entry.get(k)] *)
Definition entry_get (entry : json) (k : str) : result json :=
  match entry with
  | JObj kvs => Ok (default JNull (obj_get kvs k))
  | _ => Raise AttributeError
  end.

(** [entry[k]] for a string key *)
Definition subscript (entry : json) (k : str) : result json :=
  match entry with
  | JObj kvs =>
      match obj_get kvs k with
      | Some v => Ok v
      | None => Raise KeyError
      end
  | _ => Raise TypeError
  end.

(** The loop over [data[1]]: the first entry whose value is not [None],
    with its date. *)
Fixpoint scan (entries : list json) : result (option (json * json)) :=
  match entries with
  | [] => Ok None
  | entry :: rest =>
      let* v := entry_get entry (lit "value") in
      match v with
      | JNull => scan rest
      | _ =>
          let* d := subscript entry (lit "date") in
          Ok (Some (v, d))
      end
  end.

(** The body of the [try] once [data] is decoded: [None] when the answer is
    not a list of at least two elements or holds no value. *)
Definition latest_of (data : json) : result (option (json * json)) :=
  match data with
  | JArr (_ :: entries :: _) =>
      let* entries := iterate entries in
      scan entries
  | _ => Ok None
  end.

Section Lookup.
Context {U : Unicode} {FL : Floats} {AR : Arithmetic}.

(** The World Bank: [fetch n code] is the decoded answer to the request for
    [code] when [n] requests were made before, or the exception that
    [requests.get], [raise_for_status] or [resp.json] raises. *)
Variable fetch : nat -> str -> result json.

Definition get_inflation_from_worldbank (country_code : str) (w : world)
    : (json * json) * world :=
  match country_code with
  | [] => ((JNull, JNull), w)
  | _ =>
      let code := lower (strip country_code) in
      match _inflation_cache w !! code with
      | Some cached => (cached, w)
      | None =>
          let answer :=
            let* data := fetch (length (requests w)) code in
            latest_of data in
          (* every way out of the [try] stores what it returns *)
          let found :=
            match answer with
            | Ok (Some latest) => latest
            | Ok None => (JNull, JNull)
            | Raise _ => (JNull, JNull)
            end in
          (found,
           {| _inflation_cache := <[code := found]> (_inflation_cache w);
              requests := requests w ++ [code] |})
      end
  end.

(** ** The forecasting loop of [main] *)

(** A product record: a dictionary with these keys, each of which may be
    missing. *)
Record product : Type := {
  Product : option value;
  Current_Price : option value;
  Forecast_Months : option value;
  Country : option value;
  Currency : option value
}.

(** [item.get(key, default)] *)
Definition get (field : option value) (default : value) : value :=
  match field with
  | Some v => v
  | None => default
  end.

(** [v or ""] *)
Definition or_empty (v : value) : value :=
  if truthy v then v else VStr [].

(** [v.strip()], [v.upper()]: only text has these methods. *)
Definition str_strip (v : value) : result str :=
  match v with
  | VStr s => Ok (strip s)
  | _ => Raise AttributeError
  end.
Definition str_upper (v : value) : result str :=
  match v with
  | VStr s => Ok (upper s)
  | _ => Raise AttributeError
  end.

(** The text of the "Forecasted Price" column: one of the two sentinels, or
    [prefix ++ repr final_price ++ suffix]. *)
Inductive price_text : Type :=
| NotFound
| InvalidFormat
| Priced (prefix : str) (final_price : float) (suffix : str).

Record forecast : Type := {
  fc_Product : value;
  fc_Current_Price : value;
  fc_Forecast_Months : value;
  fc_Country : str;
  fc_Currency : str;
  Inflation_Rate : json;
  Inflation_Year : json;
  Forecasted_Price : price_text;
  Price_Series : option (list float)
}.

(** The body of the loop for one item: the entry appended to [forecasts],
    or the exception that leaves the loop. *)
Definition forecast_item (item : product) (w : world)
    : result forecast * world :=
  match
    (let* country_code := str_strip (or_empty (get (Country item) (VStr []))) in
     let* currency := str_upper (or_empty (get (Currency item) (VStr []))) in
     Ok (country_code, match currency with [] => lit "USD" | _ => currency end))
  with
  | Raise e => (Raise e, w)
  | Ok (country_code, currency) =>
      let '((inflation, year), w') :=
        get_inflation_from_worldbank country_code w in
      let echo rate yr text series :=
        {| fc_Product := get (Product item) (VStr []);
           fc_Current_Price := get (Current_Price item) (VStr (lit "N/A"));
           fc_Forecast_Months := get (Forecast_Months item) (VStr (lit "0"));
           fc_Country := country_code;
           fc_Currency := currency;
           Inflation_Rate := rate;
           Inflation_Year := yr;
           Forecasted_Price := text;
           Price_Series := series |} in
      match inflation with
      | JNull => (Ok (echo JNull JNull NotFound None), w')
      | _ =>
          (let* months := py_int (get (Forecast_Months item) (VInt 0)) in
           let* price_result :=
             forecast_price (get (Current_Price item) (VStr (lit "0")))
               inflation (VInt months) currency in
           match price_result with
           | None => Ok (echo inflation year InvalidFormat None)
           | Some (final_price, price_series, symbol) =>
               Ok (echo inflation year
                     match symbol with
                     | [] => Priced [] final_price (SPACE :: currency)
                     | _ => Priced symbol final_price []
                     end
                     (Some price_series))
           end,
           w')
      end
  end.

(** [for item in items: ...], with [forecasts] as built so far. *)
Fixpoint main_loop (items : list product) (forecasts : list forecast)
    (w : world) : result (list forecast) * world :=
  match items with
  | [] => (Ok forecasts, w)
  | item :: rest =>
      match forecast_item item w with
      | (Ok f, w') => main_loop rest (forecasts ++ [f]) w'
      | (Raise e, w') => (Raise e, w')
      end
  end.

(** [main] up to the end of the loop: the list [forecasts] that the
    spreadsheet and the report are then written from. *)
Definition main (product_list : list product) (w : world)
    : result (list forecast) * world :=
  main_loop product_list [] w.

End Lookup.

(** * The files around Calculate.py

    The data the other files hand to [Calculate.main]: the records
    [ReadExcel.read_excel_to_json_gui] builds from a sheet, the rows and the
    backup path of [CreateExcel.save_to_excel], and the record the "Add
    Product" dialog of [main.py] builds.  Reading and writing the files
    themselves is done by libraries and is not modelled; a sheet is given by
    the values of its header row and of its data rows. *)

(** ** ReadExcel.py *)

(** A dictionary key that is the text [key]. *)
Definition header_is (key : str) (h : value) : bool :=
  match h with
  | VStr k => bool_decide (k = key)
  | _ => false
  end.

(** [dict(zip(headers, row)).get(key)]: [zip] stops at the shorter of the
    two, and of two columns with the same header the later one stays. *)
Definition zip_get (headers row : list value) (key : str) : option value :=
  fold_left (fun acc hc => if header_is key (fst hc) then Some (snd hc) else acc)
            (combine headers row) None.

(** The dictionary [normalized] of one row ([product] is always a [dict]
    there, so the other branches of the conditionals are never taken). *)
Definition normalized (headers row : list value) : product :=
  {| Product := Some (get (zip_get headers row (lit "Product")) (VStr []));
     Current_Price :=
       Some (get (zip_get headers row (lit "Current Price")) (VStr []));
     Forecast_Months :=
       Some (get (zip_get headers row (lit "Forecast Months")) (VStr (lit "0")));
     Country := Some (get (zip_get headers row (lit "Country")) (VStr []));
     Currency := Some (get (zip_get headers row (lit "Currency")) (VStr [])) |}.

(** The list [data] that is written to [data.json]. *)
Definition excel_data (headers : list value) (rows : list (list value))
    : list product :=
  map (normalized headers) rows.

(** ** CreateExcel.py *)

(** The header row of [save_to_excel]. *)
Definition HEADERS : list value :=
  [ VStr (lit "Product"); VStr (lit "Current Price");
    VStr (lit "Forecast Months"); VStr (lit "Country");
    VStr (lit "Currency") ].

(** The row appended for one product. *)
Definition product_row (p : product) : list value :=
  [ get (Product p) (VStr []); get (Current_Price p) (VStr []);
    get (Forecast_Months p) (VStr []); get (Country p) (VStr []);
    get (Currency p) (VStr []) ].

(** The rows of the sheet before it is saved. *)
Definition sheet_rows (product_list : list product) : list (list value) :=
  HEADERS :: map product_row product_list.

(** [s.rfind(c)] for the characters of a class: the index of the last one,
    or -1. *)
Fixpoint rfind_from (P : char -> bool) (s : str) (i found : Z) : Z :=
  match s with
  | [] => found
  | c :: t => rfind_from P t (i + 1)%Z (if P c then i else found)
  end.
Definition rfind (P : char -> bool) (s : str) : Z := rfind_from P s 0 (- 1).

Definition is_dot (c : char) : bool := (c =? ch ".")%N.

(** [os.path.splitext(p)], for the separators [is_sep] of the platform
    (the slash, and the backslash too on Windows): the extension starts at
    the last dot if that dot comes after the last separator and some
    character of the file name before it is not a dot. *)
Definition splitext (is_sep : char -> bool) (p : str) : str * str :=
  let sepIndex := rfind is_sep p in
  let dotIndex := rfind is_dot p in
  if (sepIndex <? dotIndex)%Z then
    if existsb (fun c => negb (is_dot c))
         (take (Z.to_nat (dotIndex - (sepIndex + 1)))
               (drop (Z.to_nat (sepIndex + 1)) p))
    then (take (Z.to_nat dotIndex) p, drop (Z.to_nat dotIndex) p)
    else (p, [])
  else (p, []).

(** [json_path] of [save_to_excel]. *)
Definition backup_path (is_sep : char -> bool) (file_path : str) : str :=
  fst (splitext is_sep file_path) ++ lit "_backup.json".

(** ** The "Add Product" dialog of main.py *)

Section Dialog.
Context {U : Unicode}.

(** The dictionary [product] that [confirm] builds from the five entry
    boxes (the [save] of the edit dialog builds the same). *)
Definition confirm (name price months country currency : str) : product :=
  {| Product := Some (VStr (strip name));
     Current_Price := Some (VStr (strip price));
     Forecast_Months :=
       Some (VStr (match strip months with [] => lit "0" | m => m end));
     Country := Some (VStr (strip country));
     Currency :=
       Some (VStr (match upper (strip currency) with
                   | [] => lit "USD"
                   | c => c
                   end)) |}.

End Dialog.

(** * Vocabulary of the specification

    The statements of the specification that are compared with the program,
    in its words, and the data the examples run on. *)

Section Vocabulary.
Context {U : Unicode} {FL : Floats}.

(** A value [str] has a text for: every value but an integer of more than
    4300 digits. *)
Definition renders (x : value) : Prop :=
  forall n, x = VInt n -> (Z.abs n < 10 ^ MAX_STR_DIGITS)%Z.

(** The text of a value. *)
Definition text_of (x : value) : str :=
  match py_str x with
  | Ok s => s
  | Raise _ => []
  end.

(** The text [_parse_price] runs the pattern on. *)
Definition searched_text (x : value) : str :=
  replace_char NBSP SPACE (strip (text_of x)).

(** The currency code and the symbol of a match. *)
Definition matched_code (m : groups) (default_currency : str) : str :=
  upper (or_else (group m 1) (or_else (group m 4) default_currency)).
Definition matched_symbol (m : groups) (default_currency : str) : str :=
  dict_get CURRENCY_SYMBOLS (matched_code m default_currency)
    (or_else (group m 2) (dict_get CURRENCY_SYMBOLS default_currency [])).

(** A currency-code group is unset or holds three letters. *)
Definition code_group (x : option str) : Prop :=
  x = None \/
  exists c, x = Some c /\ length c = 3%nat
            /\ Forall (fun a => is_letter a = true) c.

(** The groups of a match of [_price_pattern]: the numeric token is set and
    is a non-empty run of [[-+\d,.]], the symbol group is set. *)
Record price_match (m : groups) : Prop := {
  pm_code1 : code_group (group m 1);
  pm_symbol : exists sym, group m 2 = Some sym;
  pm_token : exists num, group m 3 = Some num /\ num <> []
                         /\ Forall (fun c => is_numeric c = true) num;
  pm_code2 : code_group (group m 4)
}.

(** The structured strategy and the fallback strategy, as the specification
    words them: the pattern's numeric token with the thousands separators
    removed, converted; and the whole text with everything but digits, dots
    and minus signs removed, converted, with the default currency. *)
Definition spec_structured (x : value) (d : str)
    : result (float * str * str) :=
  match search _price_pattern 4 (searched_text x) with
  | None => Raise ValueError
  | Some m =>
      match group m 3 with
      | None => Raise ValueError
      | Some num =>
          let* v := py_float (remove_char (ch ",") num) in
          Ok (v, matched_symbol m d, matched_code m d)
      end
  end.

Definition spec_fallback (x : value) (d : str)
    : result (float * str * str) :=
  let* v := py_float (List.filter is_plain_numeric (searched_text x)) in
  Ok (v, dict_get CURRENCY_SYMBOLS d [], d).

Definition fails {A : Type} (c : result A) : Prop := exists e, c = Raise e.

(** The claim of the specification: the parse fails exactly when both
    strategies fail. *)
Definition fails_only_when_both_fail (s d : str) : Prop :=
  _parse_price (VStr s) d = Ok None <->
  fails (spec_structured (VStr s) d) /\ fails (spec_fallback (VStr s) d).

(** The claim of the specification for an empty or blank country code:
    the answer is [(None, None)] and the world is left as it was, so there
    was no request and no cache entry written. *)
Definition resolves_immediately (fetch : nat -> str -> result json)
    (country_code : str) (w : world) : Prop :=
  get_inflation_from_worldbank fetch country_code w = ((JNull, JNull), w).

(** The country code and the currency the loop works with. *)
Definition item_keys (item : product) : result (str * str) :=
  let* country_code := str_strip (or_empty (get (Country item) (VStr []))) in
  let* currency := str_upper (or_empty (get (Currency item) (VStr []))) in
  Ok (country_code, match currency with [] => lit "USD" | _ => currency end).

(** The claim of the specification on the totality of the parser: the
    failure triple or a triple of a float, a symbol and a code, and no
    exception. *)
Definition never_raises (x : value) (d : str) : Prop :=
  _parse_price x d = Ok None \/
  exists (v : float) (symbol code : str),
    _parse_price x d = Ok (Some (v, symbol, code)).

(** The number a numeric token denotes, as the specification reads it.
    The token with its thousands separators removed is a decimal numeral:
    an optional sign, the digits of the integer part, and after a dot, if
    there is one, the digits of the fraction, with a digit somewhere; its
    magnitude is the number these digits make by the weight of their
    positions. *)
Definition without (a : char) (t : str) : str :=
  flat_map (fun c => if (c =? a)%N then [] else [c]) t.

Fixpoint positional (ds : list N) : N :=
  match ds with
  | [] => 0
  | d :: r => d * 10 ^ N.of_nat (length r) + positional r
  end.

Fixpoint digits_of (t : str) : option (list N) :=
  match t with
  | [] => Some []
  | c :: r =>
      match decimal c, digits_of r with
      | Some d, Some ds => Some (d :: ds)
      | _, _ => None
      end
  end.

(** The text before the first dot, and the text after it if there is a
    dot. *)
Fixpoint at_dot (t : str) : str * option str :=
  match t with
  | [] => ([], None)
  | c :: r =>
      if (c =? ch ".")%N then ([], Some r)
      else let '(a, b) := at_dot r in (c :: a, b)
  end.

Definition read_decimal (t : str) : option (bool * Q) :=
  let '(neg, body) :=
    match t with
    | c :: r =>
        if (c =? ch "-")%N then (true, r)
        else if (c =? ch "+")%N then (false, r)
        else (false, t)
    | [] => (false, [])
    end in
  let '(ti, tf) := at_dot body in
  match digits_of ti, digits_of (match tf with Some f => f | None => [] end) with
  | Some ip, Some fp =>
      match ip ++ fp with
      | [] => None
      | _ => Some (neg, Qmake (Z.of_N (positional (ip ++ fp)))
                              (Z.to_pos (10 ^ Z.of_nat (length fp))))
      end
  | _, _ => None
  end.

(** The value of the token [num] of a match, as the specification has it:
    the float of the number the token denotes with its commas removed. *)
Definition token_value (num : str) : option float :=
  match read_decimal (without (ch ",") num) with
  | Some (neg, q) => Some (float_of_decimal neg q)
  | None => None
  end.

End Vocabulary.

Section ProjectionVocabulary.
Context {FL : Floats} {AR : Arithmetic}.

(** A rate of at least -100 percent: the base [1 + annualPercent/100] of
    the twelfth root is not a finite number below zero. *)
Definition real_rate (p : float) : Prop :=
  finite_negative (fadd one (fdiv p hundred)) = false.

(** The monthly factor [1 + monthlyRate] of the specification, with
    [monthlyRate = (1 + annualPercent/100)^(1/12) - 1], in the arithmetic
    of the interpreter. *)
Definition monthly_factor (p : float) : number :=
  num_add one (num_sub (root12 (fadd one (fdiv p hundred))) one).

End ProjectionVocabulary.

(** The words of the specification on the series, read in exact
    arithmetic. *)
Section SeriesVocabulary.
#[local] Existing Instance exact_floats.
#[local] Existing Instance exact.
Local Open Scope R_scope.

(** The twelfth root of a real that is not negative. *)
Definition real_root12 (b : R) : R :=
  if Req_dec_T b 0 then 0 else Rpower b (/ 12).

(** The monthly rate of the specification:
    [(1 + annualPercent/100)^(1/12) - 1]. *)
Definition spec_monthly_rate (p : R) : R := real_root12 (1 + p / 100) - 1.

(** The entry of the specification for month [m]:
    [round(startAmount * (1 + monthlyRate)^m, 2)]. *)
Definition spec_entry (start p : R) (m : nat) : R :=
  round2 (start * (1 + spec_monthly_rate p) ^ m).



(** The claim of the specification on what the projector returns. *)
Definition projects_as_specified (start : R) (a : option R) (n : Z) : Prop :=
  (_project_price_over_months start a n = Ok None <-> a = None) /\
  forall p, a = Some p ->
    exists series,
      _project_price_over_months start a n = Ok (Some series) /\
      length series = Z.to_nat (n + 1) /\
      forall m, (m <= Z.to_nat n)%nat ->
        series !! m = Some (spec_entry start p m).

End SeriesVocabulary.

(** ** Vocabulary of the further properties *)

(** An entry of the answer without a value: an object whose ["value"] is
    missing or [null]. *)
Definition no_value (e : json) : Prop :=
  exists kvs, e = JObj kvs /\ default JNull (obj_get kvs (lit "value")) = JNull.

(** The cache covers the requests: no code was requested twice, and every
    requested code has its cache entry. *)
Definition tidy (w : world) : Prop :=
  NoDup (requests w) /\
  forall code, In code (requests w) -> is_Some (_inflation_cache w !! code).

(** A field that holds text, holds [None], or is missing. *)
Definition text_or_missing (field : option value) : Prop :=
  field = None \/ field = Some VNone \/ exists s, field = Some (VStr s).

Section BatchVocabulary.
Context {U : Unicode} {FL : Floats} {AR : Arithmetic}.

(** A rate the projector can work with: none, or a number that has a float
    and is at least -100 percent. *)
Definition sane_rate (v : json) : Prop :=
  v = JNull \/ exists p, as_percent v = Ok (Some p) /\ real_rate p.

Definition sane_cache (w : world) : Prop :=
  forall code cached,
    _inflation_cache w !! code = Some cached -> sane_rate (fst cached).

(** A source whose values are such rates. *)
Definition sane_source (fetch : nat -> str -> result json) : Prop :=
  forall n code data latest,
    fetch n code = Ok data -> latest_of data = Ok (Some latest) ->
    sane_rate (fst latest).

(** A product the loop of [main] can take: country and currency are text,
    [None] or missing, the price is a value [str] has a text for, and the
    month count is an integer [n >= 0] for [int]. *)
Definition ready (item : product) : Prop :=
  text_or_missing (Country item) /\ text_or_missing (Currency item) /\
  renders (get (Current_Price item) (VStr (lit "0"))) /\
  exists n, py_int (get (Forecast_Months item) (VInt 0)) = Ok n /\ (0 <= n)%Z.

(** A country field that leads to no lookup: missing, [None], or blank
    text. *)
Definition no_country (field : option value) : Prop :=
  field = None \/ field = Some VNone \/
  exists s, field = Some (VStr s) /\ Forall (fun c => is_space c = true) s.

End BatchVocabulary.

(** A product as a workbook gives it back, [stored v] being the cell read
    for a cell written with [v]: every missing field is written as the
    empty text. *)
Definition filled (stored : value -> value) (p : product) : product :=
  {| Product := Some (stored (get (Product p) (VStr [])));
     Current_Price := Some (stored (get (Current_Price p) (VStr [])));
     Forecast_Months := Some (stored (get (Forecast_Months p) (VStr [])));
     Country := Some (stored (get (Country p) (VStr [])));
     Currency := Some (stored (get (Currency p) (VStr []))) |}.

(** [data] of [read_excel_to_json_gui] for the sheet of [save_to_excel]. *)
Definition reread (stored : value -> value) (product_list : list product)
    : list product :=
  match map (map stored) (sheet_rows product_list) with
  | headers :: rows => excel_data headers rows
  | [] => []
  end.

(** A workbook that gives an empty text back as an empty cell. *)
Definition empty_as_none (v : value) : value :=
  match v with
  | VStr [] => VNone
  | _ => v
  end.

(** ** Sample data *)

Definition world0 : world := {| _inflation_cache := ∅; requests := [] |}.

(** An answer of the World Bank: the page header, then the yearly values,
    most recent first, the latest year still without a value. *)
Definition worldbank_answer : json :=
  JArr [ JObj [ (lit "page", JInt 1) ];
         JArr [ JObj [ (lit "date", JStr (lit "2024")); (lit "value", JNull) ];
                JObj [ (lit "date", JStr (lit "2023"));
                       (lit "value", JNum 4.1) ];
                JObj [ (lit "date", JStr (lit "2022"));
                       (lit "value", JNum 8.0) ] ] ].

Definition worldbank_up : nat -> str -> result json :=
  fun _ _ => Ok worldbank_answer.
Definition worldbank_down : nat -> str -> result json :=
  fun _ _ => Raise RequestException.

(** A World Bank that has data for the United States only. *)
Definition worldbank_us_only : nat -> str -> result json :=
  fun _ code =>
    if bool_decide (code = lit "us") then Ok worldbank_answer
    else Raise RequestException.

Definition cheese : product :=
  {| Product := Some (VStr (lit "Cheese"));
     Current_Price := Some (VStr (lit "3,20 EUR"));
     Forecast_Months := Some (VInt 12);
     Country := Some (VStr (lit "XX"));
     Currency := Some (VStr (lit "eur")) |}.

(** A product whose country field holds two spaces. *)
Definition nowhere : product :=
  {| Product := Some (VStr (lit "Bread"));
     Current_Price := Some (VStr (lit "1.20"));
     Forecast_Months := Some (VInt 3);
     Country := Some (VStr (lit "  "));
     Currency := Some (VStr (lit "USD")) |}.

Definition milk (months : value) : product :=
  {| Product := Some (VStr (lit "Milk"));
     Current_Price := Some (VStr (lit "$2.50"));
     Forecast_Months := Some months;
     Country := Some (VStr (lit "US"));
     Currency := Some (VStr (lit "USD")) |}.

(** * Properties *)

(** ** The matcher finds a match exactly when there is one *)

Section MatcherFacts.
Context {A : Type}.
Implicit Types (k : str -> groups -> option A) (p : char -> bool).

Lemma star_sound p s g k a :
  star p s g k = Some a ->
  exists x s', s = x ++ s' /\ Forall (fun c => p c = true) x /\ k s' g = Some a.
Proof.
  induction s as [|c t IH]; simpl; intros H.
  - exists [], []. auto.
  - destruct (p c) eqn:Hc.
    + destruct (star p t g k) as [b|] eqn:Hs.
      * inversion H; subst b. destruct (IH eq_refl) as (x & s' & -> & Hx & Hk).
        exists (c :: x), s'. repeat split; auto.
      * exists [], (c :: t). auto.
    + exists [], (c :: t). auto.
Qed.

Lemma star_complete p x s g k :
  Forall (fun c => p c = true) x -> is_Some (k s g) ->
  is_Some (star p (x ++ s) g k).
Proof.
  intros Hx Hk. induction Hx as [|c x Hc Hx IH]; simpl.
  - destruct s as [|c t]; simpl; auto.
    destruct (p c); auto. destruct (star p t g k); eauto.
  - rewrite Hc. destruct IH as [b ->]. eauto.
Qed.

Lemma times_sound n p : forall s g k a,
  times n p s g k = Some a ->
  exists x s', s = x ++ s' /\ length x = n
    /\ Forall (fun c => p c = true) x /\ k s' g = Some a.
Proof.
  induction n as [|n IH]; simpl; intros s g k a H.
  - exists [], s. auto.
  - destruct s as [|c t]; [discriminate|].
    destruct (p c) eqn:Hc; [|discriminate].
    destruct (IH _ _ _ _ H) as (x & s' & -> & Hl & Hx & Hk).
    exists (c :: x), s'. simpl. repeat split; auto.
Qed.

Lemma times_complete p x s g k :
  Forall (fun c => p c = true) x -> is_Some (k s g) ->
  is_Some (times (length x) p (x ++ s) g k).
Proof.
  intros Hx Hk. induction Hx as [|c x Hc Hx IH]; simpl; auto.
  now rewrite Hc.
Qed.

Lemma exec_sound r : forall s g k a,
  exec r s g k = Some a ->
  exists s' g', matches r s g s' g' /\ k s' g' = Some a.
Proof.
  induction r as [p|r1 IH1 r2 IH2|r IH|p|p|n p|i r IH]; simpl; intros s g k a H.
  - destruct s as [|c t]; [discriminate|].
    destruct (p c) eqn:Hc; [|discriminate].
    exists t, g. split; auto. now constructor.
  - destruct (IH1 _ _ _ _ H) as (s1 & g1 & M1 & H1).
    destruct (IH2 _ _ _ _ H1) as (s2 & g2 & M2 & H2).
    exists s2, g2. split; auto. econstructor; eauto.
  - destruct (exec r s g k) as [b|] eqn:He.
    + inversion H; subst b.
      destruct (IH _ _ _ _ He) as (s' & g' & M & Hk).
      exists s', g'. split; auto. now constructor.
    + exists s, g. split; auto. apply matches_opt_skipped.
  - destruct (star_sound _ _ _ _ _ H) as (x & s' & -> & Hx & Hk).
    exists s', g. split; auto. now constructor.
  - destruct s as [|c t]; [discriminate|].
    destruct (p c) eqn:Hc; [|discriminate].
    destruct (star_sound _ _ _ _ _ H) as (x & s' & -> & Hx & Hk).
    exists s', g. split; auto. now constructor.
  - destruct (times_sound _ _ _ _ _ _ H) as (x & s' & -> & <- & Hx & Hk).
    exists s', g. split; auto. now constructor.
  - destruct (IH _ _ _ _ H) as (s' & g' & M & Hk).
    eexists s', _. split; [|exact Hk]. now constructor.
Qed.

Lemma exec_complete r s g s' g' :
  matches r s g s' g' ->
  forall k, is_Some (k s' g') -> is_Some (exec r s g k).
Proof.
  induction 1 as [p c t g Hc|r1 r2 s g s1 g1 s2 g2 _ IH1 _ IH2
                 |r s g s' g' _ IH|r s g|p x s g Hx|p c x s g Hc Hx
                 |p x s g Hx|i r s g s' g' _ IH]; simpl; intros k Hk.
  - now rewrite Hc.
  - apply IH1, IH2, Hk.
  - destruct (IH k Hk) as [b ->]. eauto.
  - destruct (exec r s g k); eauto.
  - now apply star_complete.
  - rewrite Hc. now apply star_complete.
  - now apply times_complete.
  - now apply IH.
Qed.

End MatcherFacts.

Lemma search_sound r n s m :
  search r n s = Some m ->
  exists t s', suffix t s /\ matches r t (replicate (S n) None) s' m.
Proof.
  induction s as [|c s IH]; cbn [search]; intros H.
  - destruct (exec r [] _ _) as [g|] eqn:He; [|discriminate].
    inversion H; subst g.
    destruct (exec_sound _ _ _ _ _ He) as (s' & g' & M & Hk).
    inversion Hk; subst g'. exists [], s'. split; [now exists []|exact M].
  - destruct (exec r (c :: s) _ _) as [g|] eqn:He.
    + inversion H; subst g.
      destruct (exec_sound _ _ _ _ _ He) as (s' & g' & M & Hk).
      inversion Hk; subst g'. exists (c :: s), s'. split; [now exists []|exact M].
    + destruct (IH H) as (t & s' & [pre ->] & M).
      exists t, s'. split; [now exists (c :: pre)|exact M].
Qed.

Lemma search_complete r n s t s' m :
  suffix t s -> matches r t (replicate (S n) None) s' m ->
  is_Some (search r n s).
Proof.
  intros [pre ->] M. induction pre as [|c pre IH].
  - assert (E : is_Some (exec r t (replicate (S n) None) (fun _ g => Some g)))
      by (eapply exec_complete; eauto).
    destruct E as [g E]. simpl app.
    destruct t; cbn [search]; rewrite E; eauto.
  - simpl app. cbn [search].
    destruct (exec r (c :: pre ++ t) _ _); eauto.
Qed.

(** ** Shape of a match *)

Lemma take_consumed (x s : str) : take (length (x ++ s) - length s) (x ++ s) = x.
Proof.
  rewrite length_app, Nat.add_sub. now rewrite take_app_length.
Qed.

Lemma matches_consumes r s g s' g' :
  matches r s g s' g' -> exists x, s = x ++ s'.
Proof.
  induction 1 as [p c t g Hc|r1 r2 s g s1 g1 s2 g2 _ [x1 ->] _ [x2 ->]
                 |r s g s' g' _ IH|r s g|p x s g Hx|p c x s g Hc Hx
                 |p x s g Hx|i r s g s' g' _ IH]; eauto.
  - now exists [c].
  - exists (x1 ++ x2). now rewrite app_assoc.
  - now exists [].
  - now exists (c :: x).
Qed.

Lemma matches_group_inv i r s g s' m :
  matches (Group i r) s g s' m ->
  exists x g', s = x ++ s' /\ matches r s g s' g' /\ m = <[i := Some x]> g'.
Proof.
  intros H. inversion H as [| | | | | | |i' r' s0 g0 s0' g' M]; subst.
  destruct (matches_consumes _ _ _ _ _ M) as [x ->].
  exists x, g'. rewrite take_consumed. auto.
Qed.

Lemma matches_times_inv n p s g s' g' :
  matches (Times n p) s g s' g' ->
  exists x, s = x ++ s' /\ g' = g /\ length x = n
    /\ Forall (fun c => p c = true) x.
Proof.
  intros H. inversion H; subst. eauto.
Qed.

Lemma matches_star_inv p s g s' g' :
  matches (Star p) s g s' g' -> g' = g.
Proof. intros H. now inversion H. Qed.

Lemma matches_plus_inv p s g s' g' :
  matches (Plus p) s g s' g' ->
  exists x, s = x ++ s' /\ g' = g /\ x <> []
    /\ Forall (fun c => p c = true) x.
Proof.
  intros H. inversion H; subst.
  exists (c :: x). repeat split; auto; discriminate.
Qed.

Lemma matches_cat_inv r1 r2 s g s2 g2 :
  matches (Cat r1 r2) s g s2 g2 ->
  exists s1 g1, matches r1 s g s1 g1 /\ matches r2 s1 g1 s2 g2.
Proof. intros H. inversion H; subst. eauto. Qed.

Lemma matches_opt_inv r s g s' g' :
  matches (Opt r) s g s' g' ->
  matches r s g s' g' \/ (s' = s /\ g' = g).
Proof. intros H. inversion H; subst; auto. Qed.

Section ParserFacts.
Context {U : Unicode}.

Lemma pattern_groups t s' m :
  matches _price_pattern t (replicate 5 None) s' m -> price_match m.
Proof.
  unfold _price_pattern. intros H.
  apply matches_cat_inv in H as (s1 & g1 & H1 & H).
  apply matches_cat_inv in H as (s2 & g2 & H2 & H).
  apply matches_cat_inv in H as (s3 & g3 & H3 & H).
  apply matches_cat_inv in H as (s4 & g4 & H4 & H).
  apply matches_cat_inv in H as (s5 & g5 & H5 & H6).
  apply matches_star_inv in H2 as ->.
  apply matches_star_inv in H5 as ->.
  apply matches_group_inv in H3 as (sym & g3' & _ & H3 & ->).
  apply matches_group_inv in H4 as (num & g4' & -> & H4 & ->).
  apply matches_plus_inv in H4 as (num' & E & -> & Hne & Hnum).
  apply app_inv_tail in E as <-.
  assert (g3' = g1) as ->.
  { apply matches_opt_inv in H3 as [H3|[_ ->]]; auto. now inversion H3. }
  clear H3.
  assert (C1 : g1 = replicate 5 None \/
               exists c, g1 = <[1%nat := Some c]> (replicate 5 None)
                 /\ length c = 3%nat /\ Forall (fun a => is_letter a = true) c).
  { apply matches_opt_inv in H1 as [H1|[_ ->]]; auto.
    apply matches_group_inv in H1 as (c & g' & -> & H1 & ->).
    apply matches_times_inv in H1 as (c' & E & -> & Hl & Hc).
    apply app_inv_tail in E as <-.
    right. eauto. }
  assert (C2 : m = <[3%nat := Some num]> (<[2%nat := Some sym]> g1) \/
               exists c, m = <[4%nat := Some c]>
                               (<[3%nat := Some num]> (<[2%nat := Some sym]> g1))
                 /\ length c = 3%nat /\ Forall (fun a => is_letter a = true) c).
  { apply matches_opt_inv in H6 as [H6|[_ ->]]; auto.
    apply matches_group_inv in H6 as (c & g' & -> & H6 & ->).
    apply matches_times_inv in H6 as (c' & E & -> & Hl & Hc).
    apply app_inv_tail in E as <-.
    right. eauto. }
  clear H1 H6.
  destruct C1 as [->|(c1 & -> & L1 & F1)], C2 as [->|(c2 & -> & L2 & F2)];
    (split; [ first [ now left | right; eexists; split; [reflexivity|]; auto ]
            | eexists; reflexivity
            | eexists; split; [reflexivity|]; auto
            | first [ now left | right; eexists; split; [reflexivity|]; auto ] ]).
Qed.

Lemma numeric_starts_match c t :
  is_numeric c = true ->
  exists s' m, matches _price_pattern (c :: t) (replicate 5 None) s' m.
Proof.
  intros Hc. eexists _, _. unfold _price_pattern.
  eapply matches_cat; [apply matches_opt_skipped|].
  eapply matches_cat; [apply (matches_star _ []); constructor|].
  eapply matches_cat; [apply matches_group, matches_opt_skipped|].
  eapply matches_cat;
    [apply matches_group, (matches_plus _ c [] t); [exact Hc|constructor]|].
  eapply matches_cat; [apply (matches_star _ []); constructor|].
  apply matches_opt_skipped.
Qed.

(** The pattern finds no match only in a text without any character of
    [[-+\d,.]]. *)
Lemma search_none_no_numeric s :
  search _price_pattern 4 s = None ->
  Forall (fun c => is_numeric c = false) s.
Proof.
  intros H. apply Forall_forall. intros c Hin.
  destruct (is_numeric c) eqn:Hc; auto. exfalso.
  apply list_elem_of_split in Hin as (pre & t & ->).
  destruct (numeric_starts_match c t Hc) as (s' & m & M).
  assert (E : is_Some (search _price_pattern 4 (pre ++ c :: t)))
    by (eapply search_complete; [now exists pre|exact M]).
  rewrite H in E. now destruct E.
Qed.

Lemma plain_numeric_is_numeric c :
  is_plain_numeric c = true -> is_numeric c = true.
Proof.
  unfold is_plain_numeric, is_numeric, is_digit. intros H.
  destruct (c =? ch "-")%N eqn:E1; auto.
  destruct (c =? ch ".")%N eqn:E2; [now rewrite !orb_true_r|].
  rewrite !orb_false_r in H. apply andb_prop in H as [H1 H2].
  apply N.leb_le in H1, H2.
  rewrite decimal_ascii by lia. unfold ascii_decimal.
  replace (48 <=? c)%N with true by (symmetry; now apply N.leb_le).
  replace (c <=? 57)%N with true by (symmetry; now apply N.leb_le).
  simpl. now rewrite orb_true_r.
Qed.

Lemma cleaned_empty s :
  Forall (fun c => is_numeric c = false) s ->
  List.filter is_plain_numeric s = [].
Proof.
  induction 1 as [|c s Hc _ IH]; simpl; auto.
  destruct (is_plain_numeric c) eqn:E; auto.
  apply plain_numeric_is_numeric in E. congruence.
Qed.

(** What is left of the text for the fallback has only digits, dots and
    minus signs. *)
Lemma cleaned_alphabet s :
  Forall (fun c => is_plain_numeric c = true) (List.filter is_plain_numeric s).
Proof.
  apply Forall_forall. intros c Hc.
  apply list_elem_of_In, filter_In in Hc. tauto.
Qed.

Lemma space_not_numeric : is_numeric SPACE = false.
Proof.
  unfold is_numeric, is_digit.
  rewrite decimal_ascii by (unfold SPACE; lia). reflexivity.
Qed.

(** The matched token holds no space, so removing spaces from it changes
    nothing. *)
Lemma token_no_space num :
  Forall (fun c => is_numeric c = true) num -> remove_char SPACE num = num.
Proof.
  induction 1 as [|c num Hc _ IH]; simpl; auto.
  unfold remove_char in *. simpl.
  destruct (c =? SPACE)%N eqn:E.
  - apply N.eqb_eq in E. subst c. rewrite space_not_numeric in Hc. discriminate.
  - simpl. now rewrite IH.
Qed.

(** With the commas removed the token is made of signs, digits and dots. *)
Lemma token_alphabet num :
  Forall (fun c => is_numeric c = true) num ->
  Forall (fun c => (c =? ch "-")%N || (c =? ch "+")%N || is_digit c
                   || (c =? ch ".")%N = true)
         (remove_char (ch ",") num).
Proof.
  intros H. apply Forall_forall. intros c Hc.
  apply list_elem_of_In, filter_In in Hc as [Hin Hne].
  rewrite Forall_forall in H. apply list_elem_of_In, H in Hin.
  unfold is_numeric in Hin.
  destruct (c =? ch ",")%N; [discriminate|].
  now rewrite orb_false_r in Hin.
Qed.

Lemma search_price_match s m :
  search _price_pattern 4 s = Some m -> price_match m.
Proof.
  intros H. apply search_sound in H as (t & s' & _ & M).
  eapply pattern_groups, M.
Qed.

End ParserFacts.

(** ** The price parser *)

Section ParserClaims.
Context {U : Unicode} {FL : Floats}.

Lemma py_str_renders (x : value) : renders x -> py_str x = Ok (text_of x).
Proof.
  intros H. unfold text_of. destruct x as [|s|n|f]; try reflexivity.
  cbn [py_str]. unfold str_of_int. specialize (H n eq_refl).
  destruct (10 ^ MAX_STR_DIGITS <=? Z.abs n)%Z eqn:E; [|reflexivity].
  apply Z.leb_le in E. lia.
Qed.

Lemma text_renders (s : str) : renders (VStr s).
Proof. intros n [=]. Qed.

Lemma parse_price_no_match x d :
  renders x ->
  search _price_pattern 4 (searched_text x) = None ->
  _parse_price x d = Ok None.
Proof.
  intros R H. pose proof (cleaned_empty _ (search_none_no_numeric _ H)) as E.
  unfold searched_text in *.
  destruct x; auto; unfold _parse_price; rewrite (py_str_renders _ R);
    cbn [bind]; rewrite H, E; reflexivity.
Qed.

Lemma parse_price_match x d m num :
  renders x -> x <> VNone ->
  search _price_pattern 4 (searched_text x) = Some m ->
  group m 3 = Some num ->
  _parse_price x d =
    match py_float (remove_char (ch ",") num) with
    | Ok v => Ok (Some (v, matched_symbol m d, matched_code m d))
    | Raise _ => Ok None
    end.
Proof.
  intros R Hx H Hnum.
  assert (Hsp : remove_char SPACE (remove_char (ch ",") num)
                = remove_char (ch ",") num).
  { destruct (search_price_match _ _ H) as [_ _ (num' & E & _ & F) _].
    rewrite Hnum in E. inversion E; subst num'.
    apply token_no_space, Forall_forall. intros c Hc.
    apply list_elem_of_In, filter_In in Hc as [Hc _].
    rewrite Forall_forall in F. now apply F, list_elem_of_In. }
  unfold searched_text in H.
  destruct x; try congruence; unfold _parse_price;
    rewrite (py_str_renders _ R); cbn [bind]; rewrite H, Hnum;
    cbn [bind]; rewrite Hsp;
    destruct (py_float (remove_char (ch ",") num)); reflexivity.
Qed.

(** [float] raises nothing but [ValueError]. *)
Lemma py_float_raises s e : py_float s = Raise e -> e = ValueError.
Proof.
  unfold py_float.
  destruct (match s with
            | [] => (false, s)
            | c :: t =>
                if (c =? ch "-")%N then (true, t)
                else if (c =? ch "+")%N then (false, t) else (false, s)
            end) as [neg s1].
  destruct (span_digits s1) as [ip s2].
  destruct s2 as [|c s3].
  - destruct ip; congruence.
  - destruct (c =? ch ".")%N; [|congruence].
    destruct (span_digits s3) as [fp s4].
    destruct s4, (ip ++ fp); congruence.
Qed.

(** C10, as amended. For an input that is text, a float, [None] or an
    integer of at most 4300 digits, and any default currency,
    [_parse_price] raises nothing: it returns the failure triple
    [(None, None, None)], or a triple of a float, a symbol and a currency
    code. *)
Theorem parse_price_total (x : value) (default_currency : str) :
  renders x ->
  _parse_price x default_currency = Ok None \/
  exists (v : float) (symbol code : str),
    _parse_price x default_currency = Ok (Some (v, symbol, code)).
Proof.
  intros R.
  assert (Hx : x = VNone \/ x <> VNone)
    by (destruct x; auto; right; discriminate).
  destruct Hx as [->|Hx]; [now left|].
  destruct (search _price_pattern 4 (searched_text x)) as [m|] eqn:H.
  - destruct (search_price_match _ _ H) as [_ _ (num & E & _) _].
    rewrite (parse_price_match x default_currency m num R Hx H E).
    destruct (py_float (remove_char (ch ",") num)); eauto.
  - left. now apply parse_price_no_match.
Qed.

(** C5, as amended. For a text input, [_parse_price] fails exactly when the
    structured strategy fails: the pattern finds no match, or the numeric
    token of the match, commas removed, does not convert.  The fallback on
    the whole text is run only when the pattern finds no match. *)
Theorem parse_price_fails_iff_structured_fails (s d : str) :
  _parse_price (VStr s) d = Ok None <-> fails (spec_structured (VStr s) d).
Proof.
  unfold fails, spec_structured.
  destruct (search _price_pattern 4 (searched_text (VStr s))) as [m|] eqn:H.
  - destruct (search_price_match _ _ H) as [_ _ (num & E & _) _].
    rewrite (parse_price_match (VStr s) d m num (text_renders s)
               ltac:(discriminate) H E), E.
    destruct (py_float (remove_char (ch ",") num)) as [v|e]; simpl.
    + split; [discriminate|]. intros [e He]. discriminate.
    + split; eauto.
  - rewrite (parse_price_no_match _ d (text_renders s) H). split; eauto.
Qed.

(** When the pattern finds no match, the fallback finds nothing to convert
    either. *)
Lemma fallback_after_no_match (x : value) (d : str) :
  search _price_pattern 4 (searched_text x) = None ->
  spec_fallback x d = Raise ValueError.
Proof.
  intros H. unfold spec_fallback.
  now rewrite (cleaned_empty _ (search_none_no_numeric _ H)).
Qed.

(** *** The value of a token *)

Lemma without_remove (a : char) (t : str) : without a t = remove_char a t.
Proof.
  unfold without, remove_char. induction t as [|c t IH]; simpl; auto.
  destruct (c =? a)%N; simpl; now rewrite IH.
Qed.

Lemma digits_value_from (ds : list N) : forall a : N,
  fold_left (fun a d => (10 * a + d)%N) ds a
  = (a * 10 ^ N.of_nat (length ds) + positional ds)%N.
Proof.
  induction ds as [|d ds IH]; intros a; simpl fold_left.
  - simpl. lia.
  - rewrite IH. cbn [length positional].
    rewrite Nat2N.inj_succ, N.pow_succ_r'. lia.
Qed.

Lemma digits_value_positional (ds : list N) : digits_value ds = positional ds.
Proof. unfold digits_value. rewrite digits_value_from. lia. Qed.

Lemma dot_no_digit : decimal (ch ".") = None.
Proof. rewrite decimal_ascii by (vm_compute; reflexivity). reflexivity. Qed.

(** [span_digits] splits a text into a run of digits and a rest that does
    not start with a digit. *)
Lemma span_digits_spec (s : str) :
  exists t, s = t ++ snd (span_digits s)
    /\ digits_of t = Some (fst (span_digits s))
    /\ match snd (span_digits s) with
       | [] => True
       | c :: _ => decimal c = None
       end.
Proof.
  induction s as [|c s (t & E & D & H)]; simpl.
  - exists []. auto.
  - destruct (decimal c) as [d|] eqn:Hc.
    + destruct (span_digits s) as [ds r]. simpl in *.
      exists (c :: t). simpl. rewrite Hc, D. split; [now f_equal|auto].
    + exists []. simpl. auto.
Qed.

Lemma digits_of_stops (t : str) (c : char) (r : str) :
  decimal c = None -> digits_of (t ++ c :: r) = None.
Proof.
  intros Hc. induction t as [|a t IH]; simpl.
  - now rewrite Hc.
  - rewrite IH. now destruct (decimal a).
Qed.

Lemma at_dot_digits (t : str) (ds : list N) :
  digits_of t = Some ds ->
  at_dot t = (t, None) /\
  (forall r : str, at_dot (t ++ ch "." :: r) = (t, Some r)) /\
  (forall (c : char) (r : str), (c =? ch ".")%N = false ->
     exists (a : str) (b : option str),
       at_dot (t ++ c :: r) = (t ++ c :: a, b)).
Proof.
  revert ds. induction t as [|a t IH]; intros ds H.
  - split; [reflexivity|]. split.
    + intros r. cbn [app at_dot]. now rewrite N.eqb_refl.
    + intros c r Hc. cbn [app at_dot]. rewrite Hc.
      destruct (at_dot r) as [x y]. now exists x, y.
  - simpl in H. destruct (decimal a) as [d|] eqn:Ha; [|discriminate].
    destruct (digits_of t) as [ds'|] eqn:Ht; [|discriminate].
    assert (Hd : (a =? ch ".")%N = false).
    { destruct (a =? ch ".")%N eqn:E; [|reflexivity].
      apply N.eqb_eq in E. subst a. rewrite dot_no_digit in Ha. discriminate. }
    destruct (IH _ eq_refl) as (I1 & I2 & I3).
    split; [|split].
    + cbn [at_dot]. now rewrite Hd, I1.
    + intros r. cbn [app at_dot]. now rewrite Hd, I2.
    + intros c r Hc. destruct (I3 c r Hc) as (x & y & E).
      exists x, y. cbn [app at_dot]. now rewrite Hd, E.
Qed.

(** [float] on a text of signs, digits and dots reads it as the
    specification reads a decimal numeral. *)
Lemma py_float_reads (t : str) :
  py_float t =
    match read_decimal t with
    | Some (neg, q) => Ok (float_of_decimal neg q)
    | None => Raise ValueError
    end.
Proof.
  assert (B : forall neg body,
    (let '(ip, s2) := span_digits body in
     match s2 with
     | [] =>
         match ip with
         | [] => Raise ValueError
         | _ => Ok (float_of_decimal neg (decimal_number ip []))
         end
     | c :: s3 =>
         if (c =? ch ".")%N then
           let '(fp, s4) := span_digits s3 in
           match s4, ip ++ fp with
           | [], _ :: _ => Ok (float_of_decimal neg (decimal_number ip fp))
           | _, _ => Raise ValueError
           end
         else Raise ValueError
     end) =
    match
      (let '(ti, tf) := at_dot body in
       match digits_of ti, digits_of (match tf with Some f => f | None => [] end) with
       | Some ip, Some fp =>
           match ip ++ fp with
           | [] => None
           | _ => Some (neg, Qmake (Z.of_N (positional (ip ++ fp)))
                                   (Z.to_pos (10 ^ Z.of_nat (length fp))))
           end
       | _, _ => None
       end)
    with
    | Some (neg, q) => Ok (float_of_decimal neg q)
    | None => Raise ValueError
    end).
  { intros neg body.
    destruct (span_digits_spec body) as (ti & E & D & H).
    destruct (span_digits body) as [ip s2]. cbn [fst snd] in *.
    destruct (at_dot_digits ti ip D) as (A1 & A2 & A3).
    destruct s2 as [|c s3].
    - rewrite app_nil_r in E. subst body. rewrite A1, D. cbn [digits_of].
      unfold decimal_number. rewrite !app_nil_r, digits_value_positional.
      now destruct ip.
    - subst body. destruct (c =? ch ".")%N eqn:Hc.
      + apply N.eqb_eq in Hc. subst c. rewrite A2, D.
        destruct (span_digits_spec s3) as (tf & E3 & D3 & H3).
        destruct (span_digits s3) as [fp s4]. cbn [fst snd] in *.
        destruct s4 as [|c4 s5].
        * rewrite app_nil_r in E3. subst s3. rewrite D3.
          unfold decimal_number. rewrite digits_value_positional.
          now destruct (ip ++ fp).
        * rewrite E3, (digits_of_stops tf c4 s5 H3). reflexivity.
      + destruct (A3 c s3 Hc) as (x & y & ->).
        now rewrite (digits_of_stops ti c x H). }
  unfold py_float, read_decimal.
  destruct t as [|c r]; [exact (B false [])|].
  destruct (c =? ch "-")%N; [exact (B true r)|].
  destruct (c =? ch "+")%N; [exact (B false r)|exact (B false (c :: r))].
Qed.

(** C6. For a text in which the pattern finds a match, the
    parse succeeds exactly when the numeric token, with every comma removed,
    is a decimal numeral; its value is then the float of the number the
    numeral denotes, and its currency code is the upper-cased leading code
    if there is one, else the trailing code if there is one, else the
    default currency. *)
Theorem parse_price_code_precedence (s d : str) (m : groups) :
  search _price_pattern 4 (searched_text (VStr s)) = Some m ->
  exists num, group m 3 = Some num /\
    _parse_price (VStr s) d =
      match token_value num with
      | Some v => Ok (Some (v, matched_symbol m d, matched_code m d))
      | None => Ok None
      end /\
    (forall c1, group m 1 = Some c1 -> matched_code m d = upper c1) /\
    (forall c2, group m 1 = None -> group m 4 = Some c2 ->
                matched_code m d = upper c2) /\
    (group m 1 = None -> group m 4 = None -> matched_code m d = upper d).
Proof.
  intros H.
  destruct (search_price_match _ _ H) as [C1 _ (num & E & _) C2].
  exists num. split; [exact E|]. split; [|split; [|split]].
  - rewrite (parse_price_match (VStr s) d m num (text_renders s)
               ltac:(discriminate) H E).
    unfold token_value. rewrite without_remove, py_float_reads.
    now destruct (read_decimal (remove_char (ch ",") num)) as [[neg q]|].
  - intros c1 E1. unfold matched_code. rewrite E1.
    destruct C1 as [C1|(c & C1 & L & _)]; rewrite E1 in C1; [discriminate|].
    inversion C1; subst c. destruct c1; [discriminate|reflexivity].
  - intros c2 E1 E2. unfold matched_code. rewrite E1, E2. simpl.
    destruct C2 as [C2|(c & C2 & L & _)]; rewrite E2 in C2; [discriminate|].
    inversion C2; subst c. destruct c2; [discriminate|reflexivity].
  - intros E1 E2. unfold matched_code. now rewrite E1, E2.
Qed.

End ParserClaims.

(** The examples of the specification, in double precision: 123.45 is the
    float 8687021468732621 * 2^-46. *)
Example parse_dollar :
  @_parse_price basic_latin binary64 (VStr (lit "$123.45")) (lit "USD")
  = Ok (Some (SpecFloat.S754_finite false 8687021468732621 (-46),
              [36%N], lit "USD")).
Proof. vm_compute. reflexivity. Qed.

Example parse_trailing_code :
  @_parse_price basic_latin binary64 (VStr (lit "123,456.78 EUR")) (lit "USD")
  = Ok (Some (SpecFloat.S754_finite false 8483885321111470 (-36),
              [8364%N], lit "EUR")).
Proof. vm_compute. reflexivity. Qed.

Example parse_garbage :
  @_parse_price basic_latin binary64 (VStr (lit "garbage")) (lit "USD")
  = Ok None.
Proof. vm_compute. reflexivity. Qed.

(** Here the value -5 comes from the pattern, with the leading letters as
    the currency code, not from the fallback. *)
Example parse_letters_around :
  @_parse_price basic_latin binary64 (VStr (lit "abc-5abc")) (lit "USD")
  = Ok (Some (SpecFloat.S754_finite true 5629499534213120 (-50),
              [36%N], lit "ABC")).
Proof. vm_compute. reflexivity. Qed.

Example parse_integer :
  @_parse_price basic_latin binary64 (VInt 1200) (lit "eur")
  = Ok (Some (SpecFloat.S754_finite false 5277655813324800 (-42),
              [8364%N], lit "EUR")).
Proof. vm_compute. reflexivity. Qed.

(** The value is the nearest float, not the decimal itself: 2.675 is read
    as 6023564501608038 * 2^-51, which lies below 2.675, and
    9007199254740993 = 2^53 + 1 as 2^53; a minus sign before a zero gives
    the negative zero. *)
Example parse_rounds_to_nearest :
  @_parse_price basic_latin binary64 (VStr (lit "2.675")) (lit "USD")
  = Ok (Some (SpecFloat.S754_finite false 6023564501608038 (-51),
              [36%N], lit "USD")) /\
  @_parse_price basic_latin binary64 (VStr (lit "9007199254740993")) (lit "USD")
  = Ok (Some (SpecFloat.S754_finite false 4503599627370496 1,
              [36%N], lit "USD")) /\
  @_parse_price basic_latin binary64 (VStr (lit "-0")) (lit "USD")
  = Ok (Some (SpecFloat.S754_zero true, [36%N], lit "USD")).
Proof. repeat split; vm_compute; reflexivity. Qed.

(** A numeral beyond the range of the floats is read as infinity. *)
Example parse_beyond_range :
  @_parse_price basic_latin binary64
    (VStr (ch "1" :: repeat (ch "0") 400)) (lit "USD")
  = Ok (Some (SpecFloat.S754_infinity false, [36%N], lit "USD")).
Proof. vm_compute. reflexivity. Qed.

(** The leftmost match, with its four groups (index 0 is not used). *)
Example search_groups :
  search (@_price_pattern basic_latin) 4 (lit "ab USD $-1,2.5  eurx")
  = Some [None; Some (lit "USD"); Some [36%N]; Some (lit "-1,2.5");
          Some (lit "eur")].
Proof. vm_compute. reflexivity. Qed.

(** The text ["- 5"]: the pattern matches the lone sign, which does not
    convert, and the parse fails, although the fallback on the whole text
    would give -5. *)
Lemma sign_then_space_fails_despite_fallback :
  ~ @fails_only_when_both_fail basic_latin binary64 (lit "- 5") (lit "USD").
Proof.
  intros [H _].
  assert (P : @_parse_price basic_latin binary64 (VStr (lit "- 5")) (lit "USD")
              = Ok None)
    by (vm_compute; reflexivity).
  destruct (H P) as [_ [e F]]. vm_compute in F. discriminate.
Qed.

(** An integer of 4301 digits as the price: [str] raises [ValueError], and
    the exception leaves [_parse_price]. *)
Lemma huge_int_price_raises :
  ~ @never_raises basic_latin binary64 (VInt (10 ^ 4300)) (lit "USD").
Proof.
  assert (P : @_parse_price basic_latin binary64 (VInt (10 ^ 4300)) (lit "USD")
              = Raise ValueError)
    by (vm_compute; reflexivity).
  unfold never_raises. rewrite P.
  intros [H|(v & symbol & code & H)]; discriminate.
Qed.

Lemma parse_price_total_witness :
  renders (VInt 1200) /\
  (@_parse_price basic_latin binary64 (VInt 1200) (lit "eur") = Ok None \/
   exists (v : @float binary64) (symbol code : str),
     @_parse_price basic_latin binary64 (VInt 1200) (lit "eur")
     = Ok (Some (v, symbol, code))).
Proof.
  assert (R : renders (VInt 1200)).
  { intros n [= <-]. vm_compute. reflexivity. }
  split; [exact R|].
  apply (@parse_price_total basic_latin binary64 (VInt 1200) (lit "eur") R).
Defined.

Lemma parse_price_code_precedence_witness :
  let m := [None; Some (lit "usd"); Some []; Some (lit "1,234.50");
            Some (lit "eur")] in
  search (@_price_pattern basic_latin) 4
    (searched_text (VStr (lit "usd 1,234.50 eur"))) = Some m /\
  (exists num, group m 3 = Some num /\
    @_parse_price basic_latin binary64 (VStr (lit "usd 1,234.50 eur"))
      (lit "GBP") =
      match @token_value basic_latin binary64 num with
      | Some v =>
          Ok (Some (v, @matched_symbol basic_latin m (lit "GBP"),
                    @matched_code basic_latin m (lit "GBP")))
      | None => Ok None
      end /\
    (forall c1, group m 1 = Some c1 ->
                @matched_code basic_latin m (lit "GBP") = map ascii_upper c1) /\
    (forall c2, group m 1 = None -> group m 4 = Some c2 ->
                @matched_code basic_latin m (lit "GBP") = map ascii_upper c2) /\
    (group m 1 = None -> group m 4 = None ->
     @matched_code basic_latin m (lit "GBP") = map ascii_upper (lit "GBP"))) /\
  @token_value basic_latin binary64 (lit "1,234.50")
  = Some (SpecFloat.S754_finite false 5429388417957888 (-42)) /\
  @_parse_price basic_latin binary64 (VStr (lit "usd 1,234.50 eur")) (lit "GBP")
  = Ok (Some (SpecFloat.S754_finite false 5429388417957888 (-42),
              [36%N], lit "USD")).
Proof.
  split; [vm_compute; reflexivity|]. split.
  - apply (@parse_price_code_precedence basic_latin binary64
             (lit "usd 1,234.50 eur") (lit "GBP")).
    vm_compute; reflexivity.
  - split; vm_compute; reflexivity.
Defined.

(** ** Rounding *)

Section Rounding.
Local Open Scope R_scope.

Lemma Int_part_IZR (z : Z) : Int_part (IZR z) = z.
Proof.
  symmetry. apply Int_part_spec. lra.
Qed.

Lemma round_half_even_IZR (z : Z) : round_half_even (IZR z) = z.
Proof.
  unfold round_half_even. rewrite Int_part_IZR.
  destruct (Rlt_dec (IZR z - IZR z) (1 / 2)) as [_|N]; [reflexivity|].
  exfalso. apply N. lra.
Qed.




(** A number with two decimals is left as it is. *)
Lemma round2_cents (z : Z) : round2 (IZR z / 100) = IZR z / 100.
Proof.
  unfold round2. replace (IZR z / 100 * 100) with (IZR z) by lra.
  now rewrite round_half_even_IZR.
Qed.

Lemma round_half_even_below_half (z : Z) (x : R) :
  IZR z <= x < IZR z + 1 / 2 -> round_half_even x = z.
Proof.
  intros H. unfold round_half_even.
  assert (E : Int_part x = z) by (symmetry; apply Int_part_spec; lra).
  rewrite E. destruct (Rlt_dec (x - IZR z) (1 / 2)) as [_|N]; [reflexivity|].
  exfalso. apply N. lra.
Qed.


End Rounding.

(** ** The projector *)

Lemma comprehension_ok {A B} (f : A -> B) (l : list A) :
  comprehension (fun a => Ok (f a)) l = Ok (map f l).
Proof.
  induction l as [|a l IH]; simpl; auto. now rewrite IH.
Qed.

Lemma comprehension_raises {A B} (f : A -> result B) (l : list A) (e : exn) :
  comprehension f l = Raise e -> exists a, In a l /\ f a = Raise e.
Proof.
  induction l as [|a l IH]; simpl; [discriminate|].
  destruct (f a) as [b|e'] eqn:Fa; cbn [bind].
  - destruct (comprehension f l) as [bs|e'']; cbn [bind]; [discriminate|].
    intros [= ->]. destruct (IH eq_refl) as (a' & Hin & Ha'). eauto.
  - intros [= ->]. eauto.
Qed.

Lemma comprehension_returns {A B} (f : A -> result B) (l : list A)
    (bs : list B) :
  comprehension f l = Ok bs ->
  length bs = length l /\
  forall i a, l !! i = Some a -> exists b, bs !! i = Some b /\ f a = Ok b.
Proof.
  revert bs. induction l as [|a l IH]; simpl; intros bs H.
  - inversion H. split; [reflexivity|]. intros i a'. now rewrite lookup_nil.
  - destruct (f a) as [b|e] eqn:Fa; cbn [bind] in H; [|discriminate].
    destruct (comprehension f l) as [bs'|e]; cbn [bind] in H; [|discriminate].
    inversion H; subst bs. destruct (IH _ eq_refl) as [L I].
    split; [simpl; now rewrite L|].
    intros [|i] a'; simpl.
    + intros [= <-]. eauto.
    + apply I.
Qed.

Lemma range_length (n : Z) : length (range n) = Z.to_nat n.
Proof. unfold range. now rewrite length_map, length_seq. Qed.

Lemma range_lookup (n : Z) (i : nat) :
  (i < Z.to_nat n)%nat -> range n !! i = Some (Z.of_nat i).
Proof.
  intros L. unfold range. change (map ?f ?l) with (f <$> l).
  rewrite list_lookup_fmap, lookup_seq_lt by exact L. reflexivity.
Qed.

Lemma range_in (n m : Z) : In m (range n) -> (Z.to_nat m < Z.to_nat n)%nat.
Proof.
  unfold range. intros H. apply in_map_iff in H as (i & <- & Hi).
  apply in_seq in Hi. rewrite Nat2Z.id. lia.
Qed.

Section ProjectorClaims.
Context {FL : Floats} {AR : Arithmetic}.

(** The projector returns [None] for the rate [None] only. *)
Lemma project_none (start : float) (a : option float) (n : Z) :
  _project_price_over_months start a n = Ok None <-> a = None.
Proof.
  destruct a as [p|]; [|simpl; tauto].
  unfold _project_price_over_months.
  destruct (comprehension _ _); cbn [bind]; split; discriminate.
Qed.

(** For a month count below zero the projector returns the empty series:
    [range] of a number that is not positive is empty. *)
Lemma project_empty_range (start p : float) (months : Z) :
  (months < 0)%Z ->
  _project_price_over_months start (Some p) months = Ok (Some []).
Proof.
  intros Hm. unfold _project_price_over_months, range.
  replace (Z.to_nat (months + 1)) with 0%nat by lia. reflexivity.
Qed.

(** The entry of one month when the monthly factor is a float. *)
Lemma month_entry (start f : float) (m : nat) :
  (let* power := num_pow (Float f) m in py_round2 (num_mul start power))
  = match pow_nat f m with
    | Some power => Ok (fround2 (fmul start power))
    | None => Raise OverflowError
    end.
Proof. cbn [num_pow]. now destruct (pow_nat f m). Qed.

Lemma real_rate_factor (p : float) :
  real_rate p -> exists f, monthly_factor p = Float f.
Proof.
  unfold real_rate, monthly_factor. intros H.
  destruct (root12 (fadd one (fdiv p hundred))) as [r|] eqn:E.
  - eexists. reflexivity.
  - apply root12_complex in E. congruence.
Qed.

(** With a monthly factor that is a float, the projector returns the
    entries of all months or raises [OverflowError] for the power of one of
    them. *)
Lemma project_cases (start p f : float) (n : Z) :
  (0 <= n)%Z -> monthly_factor p = Float f ->
  (exists series,
     _project_price_over_months start (Some p) n = Ok (Some series) /\
     length series = Z.to_nat (n + 1) /\
     forall m, (m <= Z.to_nat n)%nat ->
       exists power, pow_nat f m = Some power /\
         series !! m = Some (fround2 (fmul start power))) \/
  (_project_price_over_months start (Some p) n = Raise OverflowError /\
   exists m, (m <= Z.to_nat n)%nat /\ pow_nat f m = None).
Proof.
  intros Hn F.
  unfold _project_price_over_months. unfold monthly_factor in F. rewrite F.
  destruct (comprehension _ (range (n + 1))) as [series|e] eqn:C; cbn [bind].
  - left. exists series. split; [reflexivity|].
    apply comprehension_returns in C as [L I].
    rewrite range_length in L. split; [exact L|].
    intros m Hm.
    destruct (I m (Z.of_nat m) (range_lookup (n + 1) m ltac:(lia)))
      as (b & Hb & E).
    rewrite Nat2Z.id, month_entry in E.
    destruct (pow_nat f m) as [power|]; [|discriminate].
    exists power. split; [reflexivity|]. now inversion E; subst b.
  - right. apply comprehension_raises in C as (m & Hin & E).
    apply range_in in Hin. rewrite month_entry in E.
    destruct (pow_nat f (Z.to_nat m)) as [power|] eqn:P; [discriminate|].
    inversion E; subst e. split; [reflexivity|].
    exists (Z.to_nat m). split; [lia|exact P].
Qed.

(** C4, as amended. The projector returns [None] exactly when the rate is
    [None].  For a rate of at least -100 percent and a month count [n >= 0]
    the monthly factor [1 + monthlyRate] is a float [f], and the projector
    either returns a series of [n + 1] entries, the one for month [m] being
    [round(start * f ** m, 2)], or raises [OverflowError], which it does
    when the power of one of these months overflows. *)
Theorem project_series (start p : float) (n : Z) :
  (0 <= n)%Z -> real_rate p ->
  (forall a, _project_price_over_months start a n = Ok None <-> a = None) /\
  exists f, monthly_factor p = Float f /\
    ((exists series,
        _project_price_over_months start (Some p) n = Ok (Some series) /\
        length series = Z.to_nat (n + 1) /\
        forall m, (m <= Z.to_nat n)%nat ->
          exists power, pow_nat f m = Some power /\
            series !! m = Some (fround2 (fmul start power))) \/
     (_project_price_over_months start (Some p) n = Raise OverflowError /\
      exists m, (m <= Z.to_nat n)%nat /\ pow_nat f m = None)).
Proof.
  intros Hn Hp. split; [intros a; apply project_none|].
  destruct (real_rate_factor p Hp) as [f F]. exists f. split; [exact F|].
  now apply project_cases.
Qed.

End ProjectorClaims.

(** *** The series in exact arithmetic *)

Section Projector.
#[local] Existing Instance exact_floats.
#[local] Existing Instance exact.
Local Open Scope R_scope.

Lemma one_exact : one = 1.
Proof. unfold one. simpl. unfold Q2R. simpl. lra. Qed.

Lemma hundred_exact : hundred = 100.
Proof. unfold hundred. simpl. unfold Q2R. simpl. lra. Qed.

Lemma real_root12_pow (b : R) : 0 <= b -> real_root12 b ^ 12 = b.
Proof.
  intros Hb. unfold real_root12.
  destruct (Req_dec_T b 0) as [->|N]; [lra|].
  assert (P : 0 < b) by lra.
  rewrite <- Rpower_pow by (unfold Rpower; apply exp_pos).
  rewrite Rpower_mult.
  replace (/ 12 * INR 12) with 1 by (simpl; lra).
  now apply Rpower_1.
Qed.


Lemma real_root12_1 : real_root12 1 = 1.
Proof.
  unfold real_root12. destruct (Req_dec_T 1 0); [lra|].
  unfold Rpower. rewrite ln_1, Rmult_0_r. apply exp_0.
Qed.

Lemma real_root12_gt_1 (b : R) : 1 < b -> 1 < real_root12 b.
Proof.
  intros H. unfold real_root12. destruct (Req_dec_T b 0); [lra|].
  rewrite <- (Rpower_O b) at 1 by lra.
  apply Rpower_lt; lra.
Qed.


Lemma twelfth_root_nonneg (b : R) :
  0 <= b -> twelfth_root b = Float (real_root12 b).
Proof.
  intros H. unfold twelfth_root, real_root12.
  destruct (Rlt_dec b 0); [lra|]. now destruct (Req_dec_T b 0).
Qed.

Lemma twelfth_root_neg (b : R) : b < 0 -> twelfth_root b = Complex.
Proof.
  intros H. unfold twelfth_root. now destruct (Rlt_dec b 0).
Qed.

(** For a rate of at least -100 the projector returns the entries of the
    specification, for the months of [range (months + 1)]. *)
Lemma project_closed_form (start p : R) (months : Z) :
  - 100 <= p ->
  _project_price_over_months start (Some p) months =
    Ok (Some (map (fun m => spec_entry start p (Z.to_nat m))
                  (range (months + 1)))).
Proof.
  intros Hp. unfold _project_price_over_months.
  rewrite one_exact, hundred_exact. cbn [root12 exact fadd fdiv].
  rewrite twelfth_root_nonneg by lra.
  cbn [num_sub num_add num_pow num_mul py_round2 pow_nat fsub fadd fmul
       fround2 exact bind].
  now rewrite comprehension_ok.
Qed.

(** Below -100 the monthly rate is a [complex], and rounding the first
    entry raises. *)
Lemma project_below_minus_100 (start p : R) (months : Z) :
  p < - 100 -> (0 <= months)%Z ->
  _project_price_over_months start (Some p) months = Raise TypeError.
Proof.
  intros Hp Hm. unfold _project_price_over_months.
  rewrite one_exact, hundred_exact. cbn [root12 exact fadd fdiv].
  rewrite twelfth_root_neg by lra.
  cbn [num_sub num_add num_pow num_mul py_round2 bind].
  unfold range. destruct (Z.to_nat (months + 1)) eqn:E; [lia|].
  reflexivity.
Qed.

Lemma series_lookup {A} (h : nat -> A) (n : Z) (i : nat) :
  map (fun m => h (Z.to_nat m)) (range n) !! i =
    if decide (i < Z.to_nat n)%nat then Some (h i) else None.
Proof.
  unfold range. rewrite map_map.
  change (map ?f ?l) with (f <$> l).
  rewrite list_lookup_fmap.
  destruct (decide (i < Z.to_nat n)%nat) as [L|L].
  - rewrite lookup_seq_lt by exact L. simpl. now rewrite Nat2Z.id.
  - rewrite lookup_seq_ge by lia. reflexivity.
Qed.



(** The monthly factor [1 + monthlyRate] follows the sign of the rate. *)
Lemma factor_rising (p : R) : 0 < p -> 1 <= 1 + spec_monthly_rate p.
Proof.
  intros H. unfold spec_monthly_rate.
  pose proof (real_root12_gt_1 (1 + p / 100)). lra.
Qed.


Lemma factor_flat : 1 + spec_monthly_rate 0 = 1.
Proof.
  unfold spec_monthly_rate. replace (1 + 0 / 100) with 1 by lra.
  rewrite real_root12_1. lra.
Qed.

(** Twelve months of the monthly factor make the annual one. *)
Lemma factor_year (p : R) :
  - 100 <= p -> (1 + spec_monthly_rate p) ^ 12 = 1 + p / 100.
Proof.
  intros H. unfold spec_monthly_rate.
  replace (1 + (real_root12 (1 + p / 100) - 1))
    with (real_root12 (1 + p / 100)) by lra.
  apply real_root12_pow. lra.
Qed.





Lemma spec_entry_flat (start : R) (m : nat) :
  spec_entry start 0 m = round2 start.
Proof.
  unfold spec_entry. rewrite factor_flat, pow1. f_equal. lra.
Qed.

(** The series starts at the rounded start amount, and after twelve months
    stands at the rounded start amount grown by the annual rate. *)
Lemma spec_entry_start (start p : R) : spec_entry start p 0 = round2 start.
Proof. unfold spec_entry. simpl. f_equal. lra. Qed.

Lemma spec_entry_year (start p : R) :
  - 100 <= p -> spec_entry start p 12 = round2 (start * (1 + p / 100)).
Proof. intros H. unfold spec_entry. now rewrite factor_year. Qed.





(** A rate of -200: the base of the twelfth root is negative, and no series
    is returned. *)
Lemma rate_below_minus_100_raises :
  ~ projects_as_specified 100 (Some (- 200)) 0.
Proof.
  intros [_ H]. destruct (H _ eq_refl) as (series & E & _).
  rewrite project_below_minus_100 in E by (lra || lia). discriminate.
Qed.

(** A month that lies within the series: settle the bound and go on with
    the entry. *)
Ltac in_series :=
  match goal with
  | |- (if decide ?P then _ else _) = Some _ =>
      destruct (decide P) as [_|N]; [f_equal|exfalso; apply N; simpl; lia]
  end.

(** A price of one cent at a rate of 1: after a month it is still one cent,
    so a positive start amount does not make the series strict either. *)
Lemma one_cent_series_is_flat :
  _project_price_over_months (1 / 100) (Some 1) 1
  = Ok (Some [1 / 100; 1 / 100]).
Proof.
  rewrite project_closed_form by lra. do 2 f_equal.
  change (range (1 + 1)) with [0%Z; 1%Z]. cbn [map Z.to_nat Pos.to_nat
    Pos.iter_op Init.Nat.add].
  assert (F1 : 1 <= 1 + spec_monthly_rate 1) by (apply factor_rising; lra).
  assert (F2 : 1 + spec_monthly_rate 1 <= 101 / 100).
  { replace (101 / 100) with (1 + 1 / 100) by lra.
    rewrite <- (factor_year 1) by lra.
    rewrite <- (pow_1 (1 + spec_monthly_rate 1)) at 1.
    apply Rle_pow; [exact F1|lia]. }
  f_equal; [|f_equal].
  - rewrite spec_entry_start. apply (round2_cents 1).
  - unfold spec_entry, round2. rewrite pow_1.
    rewrite (round_half_even_below_half 1); lra.
Qed.

(** A start amount of -100 at a rate of 100: the series goes from -100 to
    -200 in twelve months, down although the rate is positive. *)
Lemma negative_start_series_falls :
  exists series,
    _project_price_over_months (- 100) (Some 100) 12 = Ok (Some series) /\
    series !! 0%nat = Some (- 100) /\ series !! 12%nat = Some (- 200).
Proof.
  eexists. split; [apply project_closed_form; lra|].
  rewrite !(series_lookup (spec_entry (- 100) 100)).
  split; in_series.
  - rewrite spec_entry_start.
    replace (- 100) with (IZR (- 10000) / 100) by lra. apply round2_cents.
  - rewrite spec_entry_year by lra.
    replace (- 100 * (1 + 100 / 100)) with (IZR (- 20000) / 100) by lra.
    rewrite round2_cents. lra.
Qed.

(** The example of the specification: 100 at a rate of 12 stands at 112.00
    after twelve months, and starts at 100.00. *)
Lemma hundred_at_twelve_percent :
  exists series,
    _project_price_over_months 100 (Some 12) 12 = Ok (Some series) /\
    series !! 0%nat = Some 100 /\ series !! 12%nat = Some 112.
Proof.
  eexists. split; [apply project_closed_form; lra|].
  rewrite !(series_lookup (spec_entry 100 12)).
  split; in_series.
  - rewrite spec_entry_start.
    replace 100 with (IZR 10000 / 100) by lra. apply round2_cents.
  - rewrite spec_entry_year by lra.
    replace (100 * (1 + 12 / 100)) with (IZR 11200 / 100) by lra.
    rewrite round2_cents. lra.
Qed.


Lemma real_rate_exact (p : R) : - 100 <= p -> real_rate p.
Proof.
  intros H. unfold real_rate. rewrite one_exact, hundred_exact.
  cbn [finite_negative exact fadd fdiv].
  destruct (Rlt_dec (1 + p / 100) 0); [lra|reflexivity].
Qed.

Lemma project_series_witness :
  (0 <= 2)%Z /\ real_rate 12 /\
  (forall a, _project_price_over_months 100 a 2 = Ok None <-> a = None) /\
  exists f, monthly_factor 12 = Float f /\
    ((exists series,
        _project_price_over_months 100 (Some 12) 2 = Ok (Some series) /\
        length series = Z.to_nat (2 + 1) /\
        forall m, (m <= Z.to_nat 2)%nat ->
          exists power, pow_nat f m = Some power /\
            series !! m = Some (fround2 (fmul 100 power))) \/
     (_project_price_over_months 100 (Some 12) 2 = Raise OverflowError /\
      exists m, (m <= Z.to_nat 2)%nat /\ pow_nat f m = None)).
Proof.
  assert (H : real_rate 12) by (apply real_rate_exact; lra).
  split; [lia|]. split; [exact H|].
  apply (@project_series exact_floats exact 100 12 2); [lia|exact H].
Defined.

End Projector.

(** ** The inflation lookup *)

Section LookupClaims.
Context {U : Unicode} {FL : Floats} {AR : Arithmetic}.
Variable fetch : nat -> str -> result json.

Lemma lstrip_blank (s : str) :
  Forall (fun c => is_space c = true) s -> lstrip s = [].
Proof.
  induction 1 as [|c s Hc _ IH]; simpl; auto. now rewrite Hc.
Qed.

Lemma strip_blank (s : str) :
  Forall (fun c => is_space c = true) s -> strip s = [].
Proof.
  intros H. unfold strip. now rewrite (lstrip_blank s H).
Qed.

Lemma strip_nil : strip [] = [].
Proof. reflexivity. Qed.

(** C7, as amended. For the empty country code the lookup returns
    [(None, None)] at once: no request is made and no cache entry written.
    A blank country field of a product record arrives at the lookup as the
    empty code, because the loop of [main] strips it before the call, so
    such an item leaves the world as it was. *)
Theorem empty_code_resolves_immediately (item : product) (s : str)
    (w : world) :
  Country item = Some (VStr s) ->
  Forall (fun c => is_space c = true) s ->
  resolves_immediately fetch [] w /\
  str_strip (or_empty (get (Country item) (VStr []))) = Ok [] /\
  snd (forecast_item fetch item w) = w.
Proof.
  intros E H. split; [reflexivity|].
  assert (K : str_strip (or_empty (get (Country item) (VStr []))) = Ok []).
  { rewrite E. cbn [get]. unfold or_empty.
    destruct s as [|c t]; [reflexivity|].
    cbn [truthy str_strip]. f_equal. now apply strip_blank. }
  split; [exact K|].
  unfold forecast_item. rewrite K. cbn [bind].
  destruct (str_upper _); reflexivity.
Qed.

(** C8. For a country code that is not blank, two lookups in a row return
    the same pair, the second lookup makes no request and leaves the world
    alone, so at most one request is made in all; after the first lookup
    the cache holds the returned pair, found or not, under the stripped,
    lower-cased code. *)
Theorem lookup_twice (country_code : str) (w : world) :
  strip country_code <> [] ->
  let '(r1, w1) := get_inflation_from_worldbank fetch country_code w in
  let '(r2, w2) := get_inflation_from_worldbank fetch country_code w1 in
  r2 = r1 /\ w2 = w1 /\
  (length (requests w2) <= S (length (requests w)))%nat /\
  _inflation_cache w1 !! lower (strip country_code) = Some r1.
Proof.
  intros Hne. destruct country_code as [|c t]; [now rewrite strip_nil in Hne|].
  unfold get_inflation_from_worldbank.
  set (code := lower (strip (c :: t))).
  destruct (_inflation_cache w !! code) as [cached|] eqn:Hit.
  - rewrite Hit. repeat split; auto.
  - cbn [_inflation_cache requests]. rewrite lookup_insert_eq.
    repeat split; auto. cbn [requests]. rewrite length_app. simpl. lia.
Qed.

End LookupClaims.

(** A code of two spaces given to the lookup itself: it is stripped to the
    empty key, requested, and cached. *)
Lemma blank_code_is_requested :
  ~ @resolves_immediately basic_latin worldbank_down (lit "  ") world0.
Proof.
  unfold resolves_immediately. intros H.
  apply (f_equal (fun r => requests (snd r))) in H.
  vm_compute in H. discriminate.
Qed.

Lemma empty_code_resolves_immediately_witness :
  Country nowhere = Some (VStr (lit "  ")) /\
  Forall (fun c => is_space c = true) (lit "  ") /\
  (@resolves_immediately basic_latin worldbank_up [] world0 /\
   str_strip (or_empty (get (Country nowhere) (VStr []))) = Ok [] /\
   snd (@forecast_item basic_latin exact_floats exact worldbank_up nowhere world0) = world0).
Proof.
  assert (H : Forall (fun c => is_space c = true) (lit "  "))
    by (repeat constructor).
  split; [reflexivity|]. split; [exact H|].
  apply (@empty_code_resolves_immediately basic_latin exact_floats exact
           worldbank_up nowhere (lit "  ") world0 eq_refl H).
Defined.

Lemma lookup_twice_witness :
  strip (lit " US ") <> [] /\
  let '(r1, w1) :=
    @get_inflation_from_worldbank basic_latin worldbank_up (lit " US ") world0 in
  let '(r2, w2) :=
    @get_inflation_from_worldbank basic_latin worldbank_up (lit " US ") w1 in
  r2 = r1 /\ w2 = w1 /\
  (length (requests w2) <= S (length (requests world0)))%nat /\
  _inflation_cache w1 !! @lower basic_latin (strip (lit " US ")) = Some r1.
Proof.
  assert (H : strip (lit " US ") <> []) by (vm_compute; discriminate).
  split; [exact H|].
  apply (@lookup_twice basic_latin worldbank_up (lit " US ") world0 H).
Defined.

(** ** The forecasting loop *)

Section LoopFacts.
Context {U : Unicode} {FL : Floats} {AR : Arithmetic}.
Variable fetch : nat -> str -> result json.

(** An entry echoes the product name of its item. *)
Lemma forecast_item_product (item : product) (w w' : world) (f : forecast) :
  forecast_item fetch item w = (Ok f, w') ->
  fc_Product f = get (Product item) (VStr []).
Proof.
  unfold forecast_item.
  destruct (bind (str_strip _) _) as [[country_code currency]|e];
    [|discriminate].
  destruct (get_inflation_from_worldbank fetch country_code w)
    as [[inflation year] w1].
  destruct inflation;
    try (intros [= <- _]; reflexivity);
    (destruct (py_int _) as [months|e]; [|discriminate]; cbn [bind];
     destruct (forecast_price _ _ _ _) as [[[[fp ps] sym]|]|e];
     [| |discriminate]; intros [= <- _]; reflexivity).
Qed.

(** When the loop runs to its end, it has appended one entry per item, in
    the order of the items. *)
Lemma main_loop_one_per_item (items : list product) :
  forall (forecasts fs : list forecast) (w w' : world),
    main_loop fetch items forecasts w = (Ok fs, w') ->
    exists added,
      fs = forecasts ++ added /\
      map fc_Product added = map (fun item => get (Product item) (VStr [])) items.
Proof.
  induction items as [|item rest IH]; simpl; intros forecasts fs w w' H.
  - inversion H; subst. exists []. now rewrite app_nil_r.
  - destruct (forecast_item fetch item w) as [[f|e] w1] eqn:E; [|discriminate].
    destruct (IH _ _ _ _ H) as (added & -> & Hm).
    exists (f :: added). rewrite <- app_assoc. split; [reflexivity|].
    simpl. now rewrite Hm, (forecast_item_product _ _ _ _ E).
Qed.

(** An exception in one item ends the loop: nothing is returned for the
    items before it or after it. *)
Lemma main_loop_raise (item : product) (rest : list product)
    (forecasts : list forecast) (w w' : world) (e : exn) :
  forecast_item fetch item w = (Raise e, w') ->
  main_loop fetch (item :: rest) forecasts w = (Raise e, w').
Proof. intros H. simpl. now rewrite H. Qed.

(** [forecast_price] with a month count below zero: nothing clamps the
    count, the series is empty and taking its last entry raises. *)
Lemma forecast_price_negative_months (price : value) (rate : json)
    (p : float) (months : value) (n : Z) (d : str) (v : float)
    (symbol code : str) :
  _parse_price price d = Ok (Some (v, symbol, code)) ->
  as_percent rate = Ok (Some p) ->
  py_int months = Ok n -> (n < 0)%Z ->
  forecast_price price rate months d = Raise IndexError.
Proof.
  intros P A M Hn. unfold forecast_price.
  rewrite P, M, A. cbn [bind try_except].
  rewrite project_empty_range by exact Hn. reflexivity.
Qed.

(** The loop of [main] hands [int] of the field to [forecast_price]. *)
Lemma forecast_item_passes_months (item : product) (w w1 : world)
    (country_code currency : str) (rate year : json) (n : Z) :
  item_keys item = Ok (country_code, currency) ->
  get_inflation_from_worldbank fetch country_code w = ((rate, year), w1) ->
  rate <> JNull ->
  py_int (get (Forecast_Months item) (VInt 0)) = Ok n ->
  forall e,
    forecast_price (get (Current_Price item) (VStr (lit "0"))) rate
      (VInt n) currency = Raise e ->
    forecast_item fetch item w = (Raise e, w1).
Proof.
  intros K G Hr M e F. unfold forecast_item. fold (item_keys item).
  rewrite K, G.
  destruct rate; [congruence|..]; rewrite M; cbn [bind]; now rewrite F.
Qed.

(** An item without inflation data gives the "not found" entry. *)
Lemma forecast_item_not_found (item : product) (w w1 : world)
    (country_code currency : str) (year : json) :
  item_keys item = Ok (country_code, currency) ->
  get_inflation_from_worldbank fetch country_code w = ((JNull, year), w1) ->
  exists f,
    forecast_item fetch item w = (Ok f, w1) /\
    Forecasted_Price f = NotFound /\ Price_Series f = None /\
    fc_Product f = get (Product item) (VStr []).
Proof.
  intros K G. unfold forecast_item. fold (item_keys item). rewrite K, G.
  eexists. split; [reflexivity|]. repeat split.
Qed.

End LoopFacts.

(** *** The loop in exact arithmetic *)

Section LoopFactsExact.
Context {U : Unicode}.
#[local] Existing Instance exact_floats.
#[local] Existing Instance exact.
Variable fetch : nat -> str -> result json.

Lemma float_of_number_exact (q : Q) : float_of_number q = Q2R q.
Proof.
  unfold float_of_number. cbn [float_of_decimal exact_floats].
  destruct q as [n d]. unfold Q2R, Qabs. cbn [Qnum Qden].
  destruct (n <? 0)%Z eqn:E.
  - apply Z.ltb_lt in E. rewrite Z.abs_neq by lia. rewrite opp_IZR. lra.
  - apply Z.ltb_ge in E. now rewrite Z.abs_eq by lia.
Qed.

Lemma as_percent_exact (q : Q) : as_percent (JNum q) = Ok (Some (Q2R q)).
Proof. cbn [as_percent]. now rewrite float_of_number_exact. Qed.

Lemma last_of_series (start p : R) (n : Z) :
  (0 <= n)%Z ->
  last_item (map (fun m => spec_entry start p (Z.to_nat m)) (range (n + 1)))
  = Ok (spec_entry start p (Z.to_nat n)).
Proof.
  intros Hn. unfold last_item. rewrite last_lookup.
  rewrite length_map, range_length.
  rewrite (series_lookup (spec_entry start p)).
  replace (Init.Nat.pred (Z.to_nat (n + 1))) with (Z.to_nat n) by lia.
  destruct (decide (Z.to_nat n < Z.to_nat (n + 1))%nat); [reflexivity|lia].
Qed.

(** [forecast_price] on a price that parses, a rate of at least -100 and a
    month count that is an integer [n >= 0]: the series of the
    specification, and its last entry as the final price. *)
Lemma forecast_price_resolved (price : value) (q : Q) (months : value)
    (n : Z) (d : str) (v : R) (symbol code : str) :
  _parse_price price d = Ok (Some (v, symbol, code)) ->
  py_int months = Ok n -> (0 <= n)%Z -> (- 100 <= Q2R q)%R ->
  forecast_price price (JNum q) months d =
    Ok (Some (spec_entry v (Q2R q) (Z.to_nat n),
              map (fun m => spec_entry v (Q2R q) (Z.to_nat m))
                  (range (n + 1)),
              match symbol with
              | [] => dict_get CURRENCY_SYMBOLS code []
              | _ => symbol
              end)).
Proof.
  intros P M Hn Hq. unfold forecast_price.
  rewrite P, M, as_percent_exact. cbn [bind try_except].
  rewrite project_closed_form by exact Hq. cbn [bind].
  rewrite last_of_series by exact Hn. reflexivity.
Qed.

(** Inside [forecast_price] a month count that [int] rejects counts as 0:
    the series has the one entry of month 0. *)
Lemma forecast_price_months_default (price : value) (q : Q) (months : value)
    (e : exn) (d : str) (v : R) (symbol code : str) :
  _parse_price price d = Ok (Some (v, symbol, code)) ->
  py_int months = Raise e -> (- 100 <= Q2R q)%R ->
  forecast_price price (JNum q) months d =
    Ok (Some (spec_entry v (Q2R q) 0,
              [spec_entry v (Q2R q) 0],
              match symbol with
              | [] => dict_get CURRENCY_SYMBOLS code []
              | _ => symbol
              end)).
Proof.
  intros P M Hq. unfold forecast_price.
  rewrite P, M, as_percent_exact. cbn [bind try_except].
  rewrite project_closed_form by exact Hq. cbn [bind].
  rewrite (last_of_series _ _ 0) by lia. reflexivity.
Qed.

(** An item with a rate of at least -100, a price that parses and a month
    count that is an integer [n >= 0] gives a priced entry: the series of
    the specification and its last entry as the final price. *)
Lemma forecast_item_resolved (item : product) (w w1 : world)
    (country_code currency : str) (q : Q) (year : json) (n : Z)
    (v : R) (symbol code : str) :
  item_keys item = Ok (country_code, currency) ->
  get_inflation_from_worldbank fetch country_code w = ((JNum q, year), w1) ->
  py_int (get (Forecast_Months item) (VInt 0)) = Ok n ->
  (0 <= n)%Z -> (- 100 <= Q2R q)%R ->
  _parse_price (get (Current_Price item) (VStr (lit "0"))) currency
    = Ok (Some (v, symbol, code)) ->
  exists f,
    forecast_item fetch item w = (Ok f, w1) /\
    Forecasted_Price f
      = (let final_price := spec_entry v (Q2R q) (Z.to_nat n) in
         match (match symbol with
                | [] => dict_get CURRENCY_SYMBOLS code []
                | _ => symbol
                end) with
         | [] => Priced [] final_price (SPACE :: currency)
         | shown => Priced shown final_price []
         end) /\
    Price_Series f
      = Some (map (fun m => spec_entry v (Q2R q) (Z.to_nat m))
                  (range (n + 1))) /\
    fc_Product f = get (Product item) (VStr []).
Proof.
  intros K G M Hn Hq P. unfold forecast_item. fold (item_keys item).
  rewrite K, G, M. cbn [bind].
  rewrite (forecast_price_resolved _ q (VInt n) n _ v symbol code P eq_refl Hn Hq).
  cbn [bind].
  eexists. split; [reflexivity|]. repeat split.
  cbn [Forecasted_Price].
  now destruct (match symbol with
                | [] => dict_get CURRENCY_SYMBOLS code []
                | _ :: _ => symbol
                end).
Qed.

End LoopFactsExact.

(** C1. A product whose "Forecast Months" is the text [abc], in a country
    with inflation data: [int] raises [ValueError] in the loop of [main],
    outside of any [try], and the exception leaves [main]. *)
Theorem months_text_leaves_main :
  fst (@main basic_latin exact_floats exact worldbank_up
         [milk (VStr (lit "abc"))] world0)
  = Raise ValueError.
Proof. vm_compute. reflexivity. Qed.

(** C2. Two products, the first with a month count that is no integer:
    the loop raises, and no entry is returned for either product. *)
Theorem bad_months_ends_batch :
  fst (@main basic_latin exact_floats exact worldbank_up
         [milk (VStr (lit "six")); milk (VInt 6)] world0)
  = Raise ValueError.
Proof. vm_compute. reflexivity. Qed.

(** C9. A product whose "Forecast Months" is [-1], in a country with
    inflation data: nothing clamps the count, it reaches the projector as
    it is, the series comes back empty, and [prices[-1]] raises
    [IndexError], which leaves [forecast_price] and [main]: the forecast
    does not complete. *)
Theorem negative_months_leave_main :
  fst (@main basic_latin exact_floats exact worldbank_up
         [milk (VStr (lit "-1"))] world0)
  = Raise IndexError.
Proof. vm_compute. reflexivity. Qed.

(** A batch of a product of a country without data and a product of a country
    with data: one "not found" entry and one priced entry, in that order. *)
Lemma mixed_batch :
  exists f1 f2 w,
    @main basic_latin exact_floats exact worldbank_us_only
      [cheese; milk (VInt 6)] world0 = (Ok [f1; f2], w) /\
    Forecasted_Price f1 = NotFound /\
    Forecasted_Price f2
      = @Priced exact_floats [36%N]
          (spec_entry (Q2R (250 # 100)) (Q2R 4.1) 6) [] /\
    fc_Product f1 = VStr (lit "Cheese") /\
    fc_Product f2 = VStr (lit "Milk") /\
    requests w = [lit "xx"; lit "us"].
Proof.
  unfold main. cbn [main_loop].
  destruct (@forecast_item_not_found basic_latin exact_floats exact
              worldbank_us_only cheese world0
              (snd (@get_inflation_from_worldbank basic_latin
                      worldbank_us_only (lit "XX") world0))
              (lit "XX") (lit "EUR") JNull)
    as (f1 & E1 & T1 & _ & N1); [vm_compute; reflexivity..|].
  rewrite E1. cbn [app].
  set (w1 := snd (@get_inflation_from_worldbank basic_latin
                    worldbank_us_only (lit "XX") world0)) in *.
  destruct (@forecast_item_resolved basic_latin worldbank_us_only
              (milk (VInt 6)) w1
              (snd (@get_inflation_from_worldbank basic_latin
                      worldbank_us_only (lit "US") w1))
              (lit "US") (lit "USD") 4.1%Q (JStr (lit "2023")) 6
              (Q2R (250 # 100)) [36%N] (lit "USD"))
    as (f2 & E2 & T2 & _ & N2);
    [vm_compute; reflexivity|vm_compute; reflexivity|reflexivity|lia
    |unfold Q2R; simpl; lra|vm_compute; reflexivity|].
  rewrite E2. exists f1, f2. eexists. split; [reflexivity|].
  repeat split; auto.
Qed.

(** The same month counts given to [forecast_price] itself: the text [abc]
    counts as 0 there and a forecast of one entry is returned, the count
    [-1] raises. *)
Lemma forecast_price_on_months_text :
  @forecast_price basic_latin exact_floats exact (VStr (lit "$2.50"))
    (JNum 4.1) (VStr (lit "abc")) (lit "USD")
  = Ok (Some (spec_entry (Q2R (250 # 100)) (Q2R 4.1) 0,
              [spec_entry (Q2R (250 # 100)) (Q2R 4.1) 0], [36%N])).
Proof.
  apply (@forecast_price_months_default basic_latin _ _ _ ValueError _
           (Q2R (250 # 100)) [36%N] (lit "USD")).
  - vm_compute. reflexivity.
  - vm_compute. reflexivity.
  - unfold Q2R. simpl. lra.
Qed.

Lemma forecast_price_on_negative_months :
  @forecast_price basic_latin exact_floats exact (VStr (lit "$2.50"))
    (JNum 4.1) (VInt (- 1)) (lit "USD")
  = Raise IndexError.
Proof.
  apply (@forecast_price_negative_months basic_latin exact_floats exact
           _ _ (Q2R 4.1) _ (- 1)%Z _ (Q2R (250 # 100)) [36%N] (lit "USD"));
    [vm_compute; reflexivity|vm_compute; reflexivity|reflexivity|lia].
Qed.

(** [int] takes the whitespace of [str.strip] around the digits, but not
    the separators U+001C to U+001F, and no more than 4300 digits. *)
Example int_of_text :
  @py_int basic_latin (VStr (SPACE :: lit "5" ++ [NBSP])) = Ok 5%Z /\
  @py_int basic_latin (VStr (28%N :: lit "5")) = Raise ValueError /\
  (exists n, @py_int basic_latin (VStr (repeat (ch "1") 4300)) = Ok n) /\
  @py_int basic_latin (VStr (repeat (ch "1") 4301)) = Raise ValueError.
Proof.
  split; [vm_compute; reflexivity|]. split; [vm_compute; reflexivity|].
  split; [eexists; vm_compute; reflexivity|vm_compute; reflexivity].
Qed.

(** A rate beyond the range of the floats, in double precision: written as
    an integer it has no float and dividing it raises, written with an
    exponent it was read as infinity. *)
Example rate_beyond_range :
  @as_percent binary64 (JInt (10 ^ 400)) = Raise OverflowError /\
  @as_percent binary64 (JNum (Qmake (10 ^ 400) 1))
  = Ok (Some (SpecFloat.S754_infinity false)) /\
  @as_percent binary64 (JInt 4)
  = Ok (Some (SpecFloat.S754_finite false 4503599627370496 (-50))).
Proof. repeat split; vm_compute; reflexivity. Qed.

(** * Further properties of the code *)

(** ** Whitespace around a price *)

Lemma lstrip_app_blank (pre s : str) :
  Forall (fun c => is_space c = true) pre -> lstrip (pre ++ s) = lstrip s.
Proof.
  induction 1 as [|c pre Hc _ IH]; simpl; auto. now rewrite Hc.
Qed.

Lemma lstrip_app (s t : str) : lstrip s <> [] -> lstrip (s ++ t) = lstrip s ++ t.
Proof.
  induction s as [|c s IH]; simpl; [congruence|].
  destruct (is_space c); auto.
Qed.

Lemma lstrip_nil_blank (s : str) :
  lstrip s = [] -> Forall (fun c => is_space c = true) s.
Proof.
  induction s as [|c s IH]; simpl; [constructor|].
  destruct (is_space c) eqn:Hc; [|discriminate].
  intros H. constructor; auto.
Qed.

Lemma lstrip_suffix (s : str) : suffix (lstrip s) s.
Proof.
  induction s as [|c s [pre IH]]; simpl; [now exists []|].
  destruct (is_space c); [|now exists []].
  exists (c :: pre). simpl. now rewrite <- IH.
Qed.

Lemma strip_surrounded (pre s post : str) :
  Forall (fun c => is_space c = true) pre ->
  Forall (fun c => is_space c = true) post ->
  strip (pre ++ s ++ post) = strip s.
Proof.
  intros Hpre Hpost. unfold strip. rewrite lstrip_app_blank by exact Hpre.
  destruct (lstrip s) as [|c t] eqn:E.
  - apply lstrip_nil_blank in E.
    rewrite lstrip_app_blank by exact E.
    now rewrite (lstrip_blank post Hpost).
  - rewrite lstrip_app by (rewrite E; discriminate). rewrite E.
    rewrite rev_app_distr. rewrite lstrip_app_blank; [reflexivity|].
    apply Forall_forall. intros a Ha.
    rewrite Forall_forall in Hpost. apply Hpost.
    apply list_elem_of_In. apply list_elem_of_In in Ha.
    now apply in_rev.
Qed.

Lemma strip_subset (s : str) (c : char) : In c (strip s) -> In c s.
Proof.
  unfold strip. intros H. apply in_rev in H.
  destruct (lstrip_suffix (rev (lstrip s))) as [p1 E1].
  assert (H1 : In c (rev (lstrip s))) by (rewrite E1; apply in_or_app; auto).
  apply in_rev in H1.
  destruct (lstrip_suffix s) as [p2 E2]. rewrite E2. apply in_or_app; auto.
Qed.

(** [strip] and the replacement of no-break spaces commute: both characters
    are whitespace. *)
Lemma lstrip_replace (s : str) :
  lstrip (replace_char NBSP SPACE s) = replace_char NBSP SPACE (lstrip s).
Proof.
  unfold replace_char. induction s as [|c s IH]; simpl; auto.
  destruct (c =? NBSP)%N eqn:E.
  - apply N.eqb_eq in E. subst c. simpl. exact IH.
  - destruct (is_space c) eqn:Hc; auto. simpl. now rewrite E.
Qed.

Lemma rev_replace (a b : char) (s : str) :
  rev (replace_char a b s) = replace_char a b (rev s).
Proof. unfold replace_char. now rewrite map_rev. Qed.

Lemma strip_replace (s : str) :
  strip (replace_char NBSP SPACE s) = replace_char NBSP SPACE (strip s).
Proof.
  unfold strip.
  now rewrite lstrip_replace, rev_replace, lstrip_replace, rev_replace.
Qed.

Lemma replace_replace (s : str) :
  replace_char NBSP SPACE (replace_char NBSP SPACE s) = replace_char NBSP SPACE s.
Proof.
  unfold replace_char. rewrite map_map. apply map_ext. intros c.
  destruct (c =? NBSP)%N eqn:E; [reflexivity|]. now rewrite E.
Qed.

Section ParserExtras.
Context {U : Unicode} {FL : Floats}.

(** X1. Whitespace before and after the text of a price does not change
    what [_parse_price] returns. *)
Theorem parse_price_ignores_outer_space (pre s post d : str) :
  Forall (fun c => is_space c = true) pre ->
  Forall (fun c => is_space c = true) post ->
  _parse_price (VStr (pre ++ s ++ post)) d = _parse_price (VStr s) d.
Proof.
  intros Hpre Hpost. unfold _parse_price. cbn [py_str bind].
  now rewrite strip_surrounded.
Qed.

(** X2. A no-break space in the text of a price counts as a plain space:
    replacing every one of them by a space does not change what
    [_parse_price] returns. *)
Theorem parse_price_nbsp_is_space (s d : str) :
  _parse_price (VStr (replace_char NBSP SPACE s)) d = _parse_price (VStr s) d.
Proof.
  unfold _parse_price. cbn [py_str bind].
  now rewrite strip_replace, replace_replace.
Qed.

End ParserExtras.

Lemma parse_price_ignores_outer_space_witness :
  Forall (fun c => is_space c = true) (lit "  ") /\
  Forall (fun c => is_space c = true) [NBSP; 9%N] /\
  @_parse_price basic_latin binary64 (VStr (lit "  " ++ lit "12 EUR" ++ [NBSP; 9%N]))
    (lit "USD")
  = @_parse_price basic_latin binary64 (VStr (lit "12 EUR")) (lit "USD").
Proof.
  assert (H1 : Forall (fun c => is_space c = true) (lit "  "))
    by (repeat constructor).
  assert (H2 : Forall (fun c => is_space c = true) [NBSP; 9%N])
    by (repeat constructor).
  split; [exact H1|]. split; [exact H2|].
  apply (@parse_price_ignores_outer_space basic_latin binary64 _ _ _ _ H1 H2).
Defined.

(** ** What the pattern needs, and which symbol is returned *)

Section PatternExtras.
Context {U : Unicode} {FL : Floats}.

(** A match of the pattern holds a character of [[-+\d,.]]. *)
Lemma match_has_numeric (s : str) (m : groups) :
  search _price_pattern 4 s = Some m ->
  exists c, In c s /\ is_numeric c = true.
Proof.
  intros H. apply search_sound in H as (t & s' & [pre ->] & H).
  unfold _price_pattern in H.
  apply matches_cat_inv in H as (s1 & g1 & H1 & H).
  apply matches_cat_inv in H as (s2 & g2 & H2 & H).
  apply matches_cat_inv in H as (s3 & g3 & H3 & H).
  apply matches_cat_inv in H as (s4 & g4 & H4 & _).
  apply matches_consumes in H1 as [x1 ->].
  apply matches_consumes in H2 as [x2 ->].
  apply matches_consumes in H3 as [x3 ->].
  apply matches_group_inv in H4 as (num & g' & -> & H4 & _).
  apply matches_plus_inv in H4 as (num' & E & _ & Hne & Hnum).
  apply app_inv_tail in E as <-.
  destruct Hnum as [|c num Hc _]; [congruence|].
  exists c. split; [|exact Hc].
  do 4 (apply in_or_app; right). now left.
Qed.

(** X3. A text that holds no sign, digit, comma or dot at all is never
    parsed: [_parse_price] returns the failure triple for it, whatever the
    default currency. *)
Theorem text_without_numeric_chars_fails (s d : str) :
  Forall (fun c => is_numeric c = false) s ->
  _parse_price (VStr s) d = Ok None.
Proof.
  intros H. apply parse_price_no_match; [apply text_renders|].
  destruct (search _price_pattern 4 (searched_text (VStr s))) as [m|] eqn:E;
    [exfalso|reflexivity].
  apply match_has_numeric in E as (c & Hin & Hc).
  unfold searched_text, replace_char, text_of in Hin. cbn [py_str] in Hin.
  apply in_map_iff in Hin as (c0 & <- & Hin).
  apply strip_subset in Hin.
  rewrite Forall_forall in H. apply list_elem_of_In, H in Hin.
  destruct (c0 =? NBSP)%N; [|congruence].
  rewrite space_not_numeric in Hc. discriminate.
Qed.

(** [CURRENCY_SYMBOLS.get] on a code of the table, and on any other code. *)
Lemma dict_get_listed (k sym default : str) :
  In (k, sym) CURRENCY_SYMBOLS -> dict_get CURRENCY_SYMBOLS k default = sym.
Proof.
  intros H. unfold CURRENCY_SYMBOLS in H. simpl in H.
  repeat (destruct H as [[= <- <-]|H]; [vm_compute; reflexivity|]).
  destruct H.
Qed.

Lemma dict_get_unlisted (l : list (str * str)) (k default : str) :
  (forall sym, ~ In (k, sym) l) -> dict_get l k default = default.
Proof.
  unfold dict_get. induction l as [|[k' v] l IH]; simpl; intros H; auto.
  destruct (bool_decide (k' = k)) eqn:E.
  - apply bool_decide_eq_true in E. subst k'. exfalso. apply (H v). now left.
  - apply IH. intros sym Hin. apply (H sym). now right.
Qed.

(** X4. The symbol returned with a parsed price: the symbol the table
    [CURRENCY_SYMBOLS] has for the resolved code, even when the text shows
    another one; for a code that is not in the table the symbol written in
    the text; and when there is none, the table's symbol for the default
    currency, or the empty text. *)
Theorem symbol_precedence (s d : str) (m : groups) (v : float)
    (symbol code : str) :
  search _price_pattern 4 (searched_text (VStr s)) = Some m ->
  _parse_price (VStr s) d = Ok (Some (v, symbol, code)) ->
  (forall sym, In (code, sym) CURRENCY_SYMBOLS -> symbol = sym) /\
  ((forall sym, ~ In (code, sym) CURRENCY_SYMBOLS) ->
   (forall c t, group m 2 = Some (c :: t) -> symbol = c :: t) /\
   (group m 2 = Some [] -> symbol = dict_get CURRENCY_SYMBOLS d [])).
Proof.
  intros H P.
  destruct (search_price_match _ _ H) as [_ _ (num & E & _) _].
  rewrite (parse_price_match (VStr s) d m num (text_renders s)
             ltac:(discriminate) H E) in P.
  destruct (py_float (remove_char (ch ",") num)); inversion P; subst.
  unfold matched_symbol. split.
  - intros sym Hin. now apply dict_get_listed.
  - intros Hout. rewrite dict_get_unlisted by exact Hout.
    split; [intros c t ->|intros ->]; reflexivity.
Qed.

End PatternExtras.

Lemma text_without_numeric_chars_fails_witness :
  Forall (fun c => @is_numeric basic_latin c = false) (lit "garbage") /\
  @_parse_price basic_latin binary64 (VStr (lit "garbage")) (lit "USD") = Ok None.
Proof.
  assert (H : Forall (fun c => @is_numeric basic_latin c = false) (lit "garbage"))
    by (repeat constructor).
  split; [exact H|].
  apply (@text_without_numeric_chars_fails basic_latin binary64 _ _ H).
Defined.

Lemma symbol_precedence_witness :
  let m := [None; None; Some [8364%N]; Some (lit "100"); Some (lit "usd")] in
  search (@_price_pattern basic_latin) 4
    (searched_text (VStr (8364%N :: lit "100 usd"))) = Some m /\
  @_parse_price basic_latin binary64 (VStr (8364%N :: lit "100 usd")) (lit "GBP")
    = Ok (Some (SpecFloat.S754_finite false 7036874417766400 (-46),
                [36%N], lit "USD")) /\
  ((forall sym, In (lit "USD", sym) CURRENCY_SYMBOLS -> [36%N] = sym) /\
   ((forall sym, ~ In (lit "USD", sym) CURRENCY_SYMBOLS) ->
    (forall c t, group m 2 = Some (c :: t) -> [36%N] = c :: t) /\
    (group m 2 = Some [] -> [36%N] = dict_get CURRENCY_SYMBOLS (lit "GBP") []))).
Proof.
  assert (H : search (@_price_pattern basic_latin) 4
                (searched_text (VStr (8364%N :: lit "100 usd")))
              = Some [None; None; Some [8364%N]; Some (lit "100");
                      Some (lit "usd")])
    by (vm_compute; reflexivity).
  assert (P : @_parse_price basic_latin binary64 (VStr (8364%N :: lit "100 usd"))
                (lit "GBP")
              = Ok (Some (SpecFloat.S754_finite false 7036874417766400 (-46),
                          [36%N], lit "USD")))
    by (vm_compute; reflexivity).
  split; [exact H|]. split; [exact P|].
  apply (@symbol_precedence basic_latin binary64 _ _ _ _ _ _ H P).
Defined.

(** ** The lookup: which entry is taken, which key it is kept under *)

Lemma scan_skips (pre rest : list json) :
  Forall no_value pre -> scan (pre ++ rest) = scan rest.
Proof.
  induction 1 as [|e pre (kvs & -> & Hv) _ IH]; simpl; auto.
  now rewrite Hv.
Qed.

Section LookupExtras.
Context {U : Unicode} {FL : Floats} {AR : Arithmetic}.
Variable fetch : nat -> str -> result json.

(** X5. On a cache miss, when the World Bank answers with a list whose
    second element is a list of entries, the lookup returns the value and
    the date of the first entry that has a value, stores that pair under
    the stripped, lower-cased code and makes one request; the entries after
    it are not looked at. *)
Theorem lookup_takes_first_value (country_code : str) (w : world)
    (meta : json) (pre post more : list json) (kvs : list (str * json))
    (v d : json) :
  country_code <> [] ->
  _inflation_cache w !! lower (strip country_code) = None ->
  fetch (length (requests w)) (lower (strip country_code))
    = Ok (JArr (meta :: JArr (pre ++ JObj kvs :: post) :: more)) ->
  Forall no_value pre ->
  obj_get kvs (lit "value") = Some v -> v <> JNull ->
  obj_get kvs (lit "date") = Some d ->
  get_inflation_from_worldbank fetch country_code w
  = ((v, d),
     {| _inflation_cache :=
          <[lower (strip country_code) := (v, d)]> (_inflation_cache w);
        requests := requests w ++ [lower (strip country_code)] |}).
Proof.
  intros Hne Miss F Hpre Hv Hnn Hd.
  destruct country_code as [|c t]; [congruence|].
  unfold get_inflation_from_worldbank. rewrite Miss, F.
  cbn [bind latest_of iterate]. rewrite scan_skips by exact Hpre.
  cbn [scan entry_get subscript bind]. rewrite Hv, Hd. cbn [default].
  destruct v; try reflexivity. congruence.
Qed.

(** X6. Two country codes that differ only in case or in surrounding
    whitespace share one cache entry: after a lookup of the first, the
    lookup of the second returns the same pair without a request. *)
Theorem lookup_shares_key (code1 code2 : str) (w : world) :
  code1 <> [] -> code2 <> [] ->
  lower (strip code1) = lower (strip code2) ->
  let '(r1, w1) := get_inflation_from_worldbank fetch code1 w in
  get_inflation_from_worldbank fetch code2 w1 = (r1, w1).
Proof.
  intros H1 H2 E.
  destruct code1 as [|c1 t1]; [congruence|].
  destruct code2 as [|c2 t2]; [congruence|].
  unfold get_inflation_from_worldbank. rewrite <- E.
  set (code := lower (strip (c1 :: t1))).
  destruct (_inflation_cache w !! code) as [cached|] eqn:Hit.
  - now rewrite Hit.
  - cbn [_inflation_cache]. now rewrite lookup_insert_eq.
Qed.

Lemma lookup_keeps_tidy (country_code : str) (w : world) :
  tidy w ->
  tidy (snd (get_inflation_from_worldbank fetch country_code w)) /\
  (length (requests (snd (get_inflation_from_worldbank fetch country_code w)))
   <= S (length (requests w)))%nat.
Proof.
  intros [Hnd Hcov]. unfold get_inflation_from_worldbank.
  destruct country_code as [|c t]; [split; [split|]; auto|].
  set (code := lower (strip (c :: t))).
  destruct (_inflation_cache w !! code) as [cached|] eqn:Hit;
    [split; [split|]; auto|].
  cbn [snd]. split; [split|]; cbn [requests _inflation_cache].
  - apply NoDup_app. repeat split; auto.
    + intros x Hx [->|[]]%list_elem_of_In.
      apply list_elem_of_In, Hcov in Hx. rewrite Hit in Hx. now destruct Hx.
    + repeat constructor. intros H%list_elem_of_In. destruct H.
  - intros k [Hk|[<-|[]]]%in_app_or.
    + destruct (decide (code = k)) as [<-|Hneq].
      * rewrite lookup_insert_eq. eauto.
      * rewrite lookup_insert_ne by exact Hneq. now apply Hcov.
    + rewrite lookup_insert_eq. eauto.
  - rewrite length_app. simpl. lia.
Qed.

Lemma forecast_item_world (item : product) (w : world) :
  snd (forecast_item fetch item w) = w \/
  exists country_code,
    snd (forecast_item fetch item w)
    = snd (get_inflation_from_worldbank fetch country_code w).
Proof.
  unfold forecast_item.
  destruct (bind (str_strip _) _) as [[country_code currency]|e]; [|now left].
  right. exists country_code.
  destruct (get_inflation_from_worldbank fetch country_code w)
    as [[inflation year] w1].
  now destruct inflation.
Qed.

Lemma main_loop_keeps_tidy (items : list product) :
  forall (forecasts : list forecast) (w : world),
    tidy w ->
    tidy (snd (main_loop fetch items forecasts w)) /\
    (length (requests (snd (main_loop fetch items forecasts w)))
     <= length (requests w) + length items)%nat.
Proof.
  induction items as [|item rest IH]; intros forecasts w T; cbn [main_loop].
  - split; [exact T|]. simpl. lia.
  - assert (T1 : tidy (snd (forecast_item fetch item w)) /\
                 (length (requests (snd (forecast_item fetch item w)))
                  <= S (length (requests w)))%nat).
    { destruct (forecast_item_world item w) as [->|[cc ->]].
      - split; [exact T|lia].
      - now apply lookup_keeps_tidy. }
    destruct (forecast_item fetch item w) as [[f|e] w1]; cbn [snd] in *.
    + destruct T1 as [T1 L1]. destruct (IH (forecasts ++ [f]) w1 T1) as [T2 L2].
      split; [exact T2|]. simpl. lia.
    + destruct T1 as [T1 L1]. split; [exact T1|]. simpl. lia.
Qed.

(** X7. In a run of [main] no country key is requested twice: when the cache
    covers the requests made so far, it still does after the loop, whether
    the loop ends or raises, and the loop makes at most one request per
    product. *)
Theorem main_requests_each_key_once (product_list : list product)
    (w : world) :
  tidy w ->
  tidy (snd (main fetch product_list w)) /\
  (length (requests (snd (main fetch product_list w)))
   <= length (requests w) + length product_list)%nat.
Proof. intros T. now apply main_loop_keeps_tidy. Qed.

End LookupExtras.

Lemma lookup_takes_first_value_witness :
  lit "US" <> [] /\
  _inflation_cache world0 !! @lower basic_latin (strip (lit "US")) = None /\
  worldbank_up (length (requests world0)) (@lower basic_latin (strip (lit "US")))
    = Ok (JArr (JObj [(lit "page", JInt 1)]
                :: JArr ([JObj [(lit "date", JStr (lit "2024"));
                                (lit "value", JNull)]]
                         ++ JObj [(lit "date", JStr (lit "2023"));
                                  (lit "value", JNum 4.1)]
                         :: [JObj [(lit "date", JStr (lit "2022"));
                                   (lit "value", JNum 8.0)]])
                :: [])) /\
  Forall no_value [JObj [(lit "date", JStr (lit "2024")); (lit "value", JNull)]] /\
  obj_get [(lit "date", JStr (lit "2023")); (lit "value", JNum 4.1)] (lit "value")
    = Some (JNum 4.1) /\
  JNum 4.1 <> JNull /\
  obj_get [(lit "date", JStr (lit "2023")); (lit "value", JNum 4.1)] (lit "date")
    = Some (JStr (lit "2023")) /\
  @get_inflation_from_worldbank basic_latin worldbank_up (lit "US") world0
  = ((JNum 4.1, JStr (lit "2023")),
     {| _inflation_cache :=
          <[@lower basic_latin (strip (lit "US")) := (JNum 4.1, JStr (lit "2023"))]>
            (_inflation_cache world0);
        requests := requests world0 ++ [@lower basic_latin (strip (lit "US"))] |}).
Proof.
  assert (H1 : lit "US" <> []) by discriminate.
  assert (H2 : _inflation_cache world0 !! @lower basic_latin (strip (lit "US"))
               = None) by (vm_compute; reflexivity).
  assert (H4 : Forall no_value
                 [JObj [(lit "date", JStr (lit "2024")); (lit "value", JNull)]]).
  { repeat constructor. eexists. split; [reflexivity|]. vm_compute. reflexivity. }
  assert (H5 : obj_get [(lit "date", JStr (lit "2023")); (lit "value", JNum 4.1)]
                 (lit "value") = Some (JNum 4.1)) by (vm_compute; reflexivity).
  assert (H6 : JNum 4.1 <> JNull) by discriminate.
  assert (H7 : obj_get [(lit "date", JStr (lit "2023")); (lit "value", JNum 4.1)]
                 (lit "date") = Some (JStr (lit "2023")))
    by (vm_compute; reflexivity).
  repeat (split; [assumption || reflexivity|]).
  apply (@lookup_takes_first_value basic_latin worldbank_up (lit "US") world0
           (JObj [(lit "page", JInt 1)])
           [JObj [(lit "date", JStr (lit "2024")); (lit "value", JNull)]]
           [JObj [(lit "date", JStr (lit "2022")); (lit "value", JNum 8.0)]]
           []
           [(lit "date", JStr (lit "2023")); (lit "value", JNum 4.1)]
           (JNum 4.1) (JStr (lit "2023")) H1 H2 eq_refl H4 H5 H6 H7).
Defined.

Lemma lookup_shares_key_witness :
  lit " US" <> [] /\ lit "us " <> [] /\
  @lower basic_latin (strip (lit " US")) = @lower basic_latin (strip (lit "us ")) /\
  let '(r1, w1) :=
    @get_inflation_from_worldbank basic_latin worldbank_up (lit " US") world0 in
  @get_inflation_from_worldbank basic_latin worldbank_up (lit "us ") w1 = (r1, w1).
Proof.
  assert (H1 : lit " US" <> []) by discriminate.
  assert (H2 : lit "us " <> []) by discriminate.
  assert (H3 : @lower basic_latin (strip (lit " US"))
               = @lower basic_latin (strip (lit "us ")))
    by (vm_compute; reflexivity).
  split; [exact H1|]. split; [exact H2|]. split; [exact H3|].
  apply (@lookup_shares_key basic_latin worldbank_up _ _ world0 H1 H2 H3).
Defined.

Lemma tidy_world0 : tidy world0.
Proof. split; [constructor|]. intros code []. Qed.

Lemma main_requests_each_key_once_witness :
  tidy world0 /\
  (tidy (snd (@main basic_latin exact_floats exact worldbank_us_only
                [cheese; milk (VInt 6); milk (VInt 3)] world0)) /\
   (length (requests (snd (@main basic_latin exact_floats exact worldbank_us_only
                             [cheese; milk (VInt 6); milk (VInt 3)] world0)))
    <= length (requests world0)
       + length [cheese; milk (VInt 6); milk (VInt 3)])%nat).
Proof.
  split; [exact tidy_world0|].
  apply (@main_requests_each_key_once basic_latin exact_floats exact
           worldbank_us_only [cheese; milk (VInt 6); milk (VInt 3)] world0
           tidy_world0).
Defined.

(** ** The projector at its special rates *)

Section ProjectorExtras.
#[local] Existing Instance exact_floats.
#[local] Existing Instance exact.
Local Open Scope R_scope.

(** X8. At rate 0 the series is the rounded start amount, once for month 0
    and once for each month asked for. *)
Theorem zero_rate_keeps_price (start : R) (n : Z) :
  _project_price_over_months start (Some 0) n
  = Ok (Some (replicate (Z.to_nat (n + 1)) (round2 start))).
Proof.
  rewrite project_closed_form by lra. do 2 f_equal.
  apply list_eq. intros i. rewrite (series_lookup (spec_entry start 0)).
  destruct (decide (i < Z.to_nat (n + 1))%nat) as [L|L].
  - rewrite lookup_replicate_2 by exact L. now rewrite spec_entry_flat.
  - symmetry. apply lookup_replicate_None. lia.
Qed.



End ProjectorExtras.

(** ** Forecasts that complete *)

Section ForecastExtras.
Context {U : Unicode} {FL : Floats} {AR : Arithmetic}.
Variable fetch : nat -> str -> result json.

Lemma parse_price_ok (x : value) (d : str) :
  renders x -> exists r, _parse_price x d = Ok r.
Proof.
  intros R.
  assert (Hx : x = VNone \/ x <> VNone)
    by (destruct x; auto; right; discriminate).
  destruct Hx as [->|Hx]; [now exists None|].
  destruct (search _price_pattern 4 (searched_text x)) as [m|] eqn:H.
  - destruct (search_price_match _ _ H) as [_ _ (num & E & _) _].
    rewrite (parse_price_match x d m num R Hx H E).
    destruct (py_float (remove_char (ch ",") num)); eauto.
  - exists None. now apply parse_price_no_match.
Qed.

(** What [forecast_price] returns for a price that parses, a rate of at
    least -100 percent and a month count [n >= 0]: a forecast whose series
    holds the entries of months 0 to [n], or [OverflowError], and this only
    for a count above 0. *)
Lemma forecast_price_cases (price : value) (rate : json) (p : float)
    (months : value) (n : Z) (d : str) (v : float) (symbol code : str) :
  _parse_price price d = Ok (Some (v, symbol, code)) ->
  py_int months = Ok n -> (0 <= n)%Z ->
  as_percent rate = Ok (Some p) -> real_rate p ->
  (forecast_price price rate months d = Raise OverflowError /\ (0 < n)%Z) \/
  exists final_price series shown,
    forecast_price price rate months d
      = Ok (Some (final_price, series, shown)) /\
    length series = Z.to_nat (n + 1) /\
    series !! 0%nat = Some (fround2 v) /\
    series !! Z.to_nat n = Some final_price /\
    last series = Some final_price.
Proof.
  intros P M Hn A Hp. destruct (real_rate_factor p Hp) as [f F].
  unfold forecast_price. rewrite P, M, A. cbn [bind try_except].
  destruct (project_cases v p f n Hn F)
    as [(series & -> & L & I)|(-> & m & Hm & O)]; cbn [bind].
  - right.
    destruct (I 0%nat ltac:(lia)) as (p0 & P0 & S0).
    rewrite pow_nat_0 in P0. inversion P0; subst p0.
    rewrite fmul_one in S0.
    destruct (I (Z.to_nat n) ltac:(lia)) as (pn & Pn & Sn).
    assert (La : last series = Some (fround2 (fmul v pn))).
    { rewrite last_lookup, L.
      replace (Init.Nat.pred (Z.to_nat (n + 1))) with (Z.to_nat n) by lia.
      exact Sn. }
    unfold last_item. rewrite La. cbn [bind].
    eexists _, _, _. split; [reflexivity|]. auto.
  - left. split; [reflexivity|].
    destruct m as [|m]; [rewrite pow_nat_0 in O; discriminate|lia].
Qed.


(** X12. Without an inflation rate [forecast_price] returns the failure
    triple, for every price [str] has a text for and every month count:
    nothing is raised, also not for a month count that is no integer or is
    negative. *)
Theorem forecast_without_rate (price months : value) (d : str) :
  renders price ->
  forecast_price price JNull months d = Ok None.
Proof.
  intros R. unfold forecast_price.
  destruct (parse_price_ok price d R) as [[[[v symbol] code]|] ->];
    [|reflexivity].
  cbn [bind]. now destruct (py_int months).
Qed.

Lemma item_keys_text (item : product) :
  text_or_missing (Country item) -> text_or_missing (Currency item) ->
  exists country_code currency, item_keys item = Ok (country_code, currency).
Proof.
  unfold item_keys.
  intros [->|[->|[s ->]]] [->|[->|[t ->]]]; cbn [get or_empty truthy];
    try destruct s; try destruct t; cbn [str_strip str_upper bind]; eauto.
Qed.

Lemma item_keys_no_country (item : product) :
  no_country (Country item) -> text_or_missing (Currency item) ->
  exists currency, item_keys item = Ok ([], currency).
Proof.
  unfold item_keys.
  intros [->|[->|(s & -> & Hs)]] [->|[->|[t ->]]];
    try destruct s; try destruct t;
    unfold or_empty; cbn [get truthy str_strip str_upper bind];
    try rewrite (strip_blank _ Hs); eauto.
Qed.

(** X13. A product without a country (the field is missing, [None] or
    blank) whose currency is text, [None] or missing gets the entry
    "Inflation data not found" with no series; whatever its price and its
    month count are, nothing is raised, no request is made and the cache is
    left alone. *)
Theorem no_country_gives_not_found (item : product) (w : world) :
  no_country (Country item) -> text_or_missing (Currency item) ->
  exists f,
    forecast_item fetch item w = (Ok f, w) /\
    Forecasted_Price f = NotFound /\ Price_Series f = None /\
    fc_Country f = [] /\ Inflation_Rate f = JNull.
Proof.
  intros Hc Hcur. destruct (item_keys_no_country item Hc Hcur) as [cur K].
  unfold forecast_item. fold (item_keys item). rewrite K.
  eexists. split; [reflexivity|]. repeat split.
Qed.

Lemma lookup_sane (country_code : str) (w : world) :
  sane_source fetch -> sane_cache w ->
  sane_rate (fst (fst (get_inflation_from_worldbank fetch country_code w))) /\
  sane_cache (snd (get_inflation_from_worldbank fetch country_code w)).
Proof.
  intros Hs Hc. unfold get_inflation_from_worldbank.
  destruct country_code as [|c t]; [split; [now left|exact Hc]|].
  set (code := lower (strip (c :: t))).
  destruct (_inflation_cache w !! code) as [cached|] eqn:Hit.
  - split; [exact (Hc _ _ Hit)|exact Hc].
  - assert (S : sane_rate
                  (fst match
                         bind (fetch (length (requests w)) code)
                           (fun data => latest_of data)
                       with
                       | Ok (Some latest) => latest
                       | _ => (JNull, JNull)
                       end)).
    { destruct (fetch (length (requests w)) code) as [data|e] eqn:F;
        cbn [bind]; [|now left].
      destruct (latest_of data) as [[latest|]|e] eqn:L; try now left.
      exact (Hs _ _ _ _ F L). }
    split; [exact S|]. intros k cached. cbn [snd _inflation_cache].
    destruct (decide (code = k)) as [<-|Hneq].
    + rewrite lookup_insert_eq. now intros [= <-].
    + rewrite lookup_insert_ne by exact Hneq. apply Hc.
Qed.

(** One item of a well-formed batch: its entry is appended, or the power of
    one of its months overflows, which needs a month count above 0. *)
Lemma forecast_item_completes (item : product) (w : world) :
  sane_source fetch -> sane_cache w -> ready item ->
  sane_cache (snd (forecast_item fetch item w)) /\
  ((exists f,
      fst (forecast_item fetch item w) = Ok f /\
      fc_Product f = get (Product item) (VStr [])) \/
   (fst (forecast_item fetch item w) = Raise OverflowError /\
    exists n, py_int (get (Forecast_Months item) (VInt 0)) = Ok n
              /\ (0 < n)%Z)).
Proof.
  intros Hs Hc (Hco & Hcu & Hpr & n & Hm & Hn).
  destruct (item_keys_text item Hco Hcu) as (cc & cur & K).
  pose proof (lookup_sane cc w Hs Hc) as [Sr Sc].
  unfold forecast_item. fold (item_keys item). rewrite K.
  destruct (get_inflation_from_worldbank fetch cc w) as [[inflation year] w1].
  cbn [fst snd] in Sr, Sc.
  assert (N : inflation = JNull \/ inflation <> JNull)
    by (destruct inflation; auto; right; discriminate).
  destruct N as [->|N]; [split; [exact Sc|left; eexists; split; reflexivity]|].
  destruct Sr as [->|(p & A & Hp)]; [congruence|].
  assert (G : forall (X : Type) (a b : X),
            match inflation with JNull => a | _ => b end = b)
    by (intros X a b; destruct inflation; congruence).
  rewrite G, Hm. cbn [bind fst snd]. split; [exact Sc|].
  destruct (parse_price_ok (get (Current_Price item) (VStr (lit "0"))) cur Hpr)
    as [[[[v symbol] code]|] P].
  - destruct (forecast_price_cases _ inflation p (VInt n) n cur v symbol code
                P eq_refl Hn A Hp)
      as [[E Hpos]|(fp & series & shown & E & _)]; rewrite E; cbn [bind].
    + right. split; [reflexivity|]. eauto.
    + left. eexists. split; reflexivity.
  - left. unfold forecast_price. rewrite P. cbn [bind].
    eexists. split; reflexivity.
Qed.



End ForecastExtras.


Lemma forecast_without_rate_witness :
  renders (VInt 12) /\
  @forecast_price basic_latin exact_floats exact (VInt 12) JNull
    (VStr (lit "abc")) (lit "USD") = Ok None.
Proof.
  assert (R : renders (VInt 12)).
  { intros n [= <-]. vm_compute. reflexivity. }
  split; [exact R|].
  apply (@forecast_without_rate basic_latin exact_floats exact _ _ _ R).
Defined.

Lemma no_country_gives_not_found_witness :
  @no_country (Country nowhere) /\ text_or_missing (Currency nowhere) /\
  exists f,
    @forecast_item basic_latin exact_floats exact worldbank_up nowhere world0
      = (Ok f, world0) /\
    Forecasted_Price f = NotFound /\ Price_Series f = None /\
    fc_Country f = [] /\ Inflation_Rate f = JNull.
Proof.
  assert (H1 : no_country (Country nowhere)).
  { right. right. exists (lit "  "). split; [reflexivity|repeat constructor]. }
  assert (H2 : text_or_missing (Currency nowhere))
    by (right; right; eexists; reflexivity).
  split; [exact H1|]. split; [exact H2|].
  apply (@no_country_gives_not_found basic_latin exact_floats exact
           worldbank_up nowhere world0 H1 H2).
Defined.

Lemma worldbank_us_only_sane :
  @sane_source exact_floats exact worldbank_us_only.
Proof.
  intros n code data latest F L. unfold worldbank_us_only in F.
  destruct (bool_decide (code = lit "us")); [|discriminate].
  inversion F; subst data. vm_compute in L. inversion L; subst latest.
  right. exists (Q2R 4.1). split; [apply as_percent_exact|].
  apply real_rate_exact. unfold Q2R. simpl. lra.
Qed.

Lemma world0_sane : @sane_cache exact_floats exact world0.
Proof. intros code cached H. cbn in H. now rewrite lookup_empty in H. Qed.



(** ** The sheet, the dialog, and the loop of [main] *)

(** [strip] leaves what it returns alone. *)
Lemma lstrip_idem (s : str) : lstrip (lstrip s) = lstrip s.
Proof.
  induction s as [|c s IH]; simpl; auto.
  destruct (is_space c) eqn:E; auto. simpl. now rewrite E.
Qed.

Lemma lstrip_keeps_last (l : str) (c : char) :
  is_space c = false -> exists p, lstrip (l ++ [c]) = p ++ [c].
Proof.
  intros Hc. induction l as [|a l [p IH]]; simpl.
  - rewrite Hc. now exists [].
  - destruct (is_space a); [now exists p|]. now exists (a :: l).
Qed.

Lemma strip_keeps_head (t : str) :
  lstrip t = t -> lstrip (rev (lstrip (rev t))) = rev (lstrip (rev t)).
Proof.
  intros H. destruct t as [|c t]; [reflexivity|].
  assert (Hc : is_space c = false).
  { simpl in H. destruct (is_space c) eqn:E; [|reflexivity].
    exfalso. destruct (lstrip_suffix t) as [pre E1].
    rewrite H in E1. apply (f_equal length) in E1.
    rewrite length_app in E1. simpl in E1. lia. }
  simpl rev. destruct (lstrip_keeps_last (rev t) c Hc) as [p ->].
  rewrite rev_app_distr. simpl. now rewrite Hc.
Qed.

Lemma strip_strip (s : str) : strip (strip s) = strip s.
Proof.
  unfold strip at 1.
  assert (E : lstrip (strip s) = strip s)
    by (unfold strip; apply strip_keeps_head, lstrip_idem).
  rewrite E. unfold strip. rewrite rev_involutive, lstrip_idem. reflexivity.
Qed.

Section SheetExtras.
Context {U : Unicode} {FL : Floats} {AR : Arithmetic}.
Variable fetch : nat -> str -> result json.

(** X15. A sheet row whose "Forecast Months" cell is empty keeps [None] in
    that field (the default ["0"] is for a missing column only), and such a
    record makes the loop of [main] raise [TypeError] as soon as the country
    has inflation data. *)
Theorem empty_months_cell_raises (headers row : list value) (w w1 : world)
    (country_code currency : str) (inflation year : json) :
  zip_get headers row (lit "Forecast Months") = Some VNone ->
  item_keys (normalized headers row) = Ok (country_code, currency) ->
  get_inflation_from_worldbank fetch country_code w
    = ((inflation, year), w1) ->
  inflation <> JNull ->
  Forecast_Months (normalized headers row) = Some VNone /\
  forecast_item fetch (normalized headers row) w = (Raise TypeError, w1).
Proof.
  intros Hz K G Hn.
  assert (E : Forecast_Months (normalized headers row) = Some VNone)
    by (cbn [normalized Forecast_Months]; now rewrite Hz).
  split; [exact E|].
  unfold forecast_item. fold (item_keys (normalized headers row)).
  rewrite K, G, E. cbn [get py_int bind].
  destruct inflation; congruence.
Qed.

Lemma find_in_app {A} (P : A -> bool) (l1 l2 : list A) :
  List.find P (l1 ++ l2)
  = match List.find P l1 with
    | Some x => Some x
    | None => List.find P l2
    end.
Proof.
  induction l1 as [|a l1 IH]; simpl; auto. now destruct (P a).
Qed.

(** The dictionary lookup finds the last column with the header. *)
Lemma zip_get_fold (key : str) (cols : list (value * value))
    (acc : option value) :
  fold_left (fun acc hc => if header_is key (fst hc) then Some (snd hc) else acc)
            cols acc
  = match List.find (fun hc => header_is key (fst hc)) (rev cols) with
    | Some hc => Some (snd hc)
    | None => acc
    end.
Proof.
  revert acc. induction cols as [|hc cols IH]; intros acc; simpl; auto.
  rewrite IH, find_in_app.
  destruct (List.find _ (rev cols)); [reflexivity|]. simpl.
  now destruct (header_is key (fst hc)).
Qed.

Lemma header_is_text (key : str) (h : value) :
  header_is key h = true -> h = VStr key.
Proof.
  destruct h; simpl; try discriminate.
  intros H. apply bool_decide_eq_true in H. now subst.
Qed.

Lemma NoDup_fst_unique (cols : list (value * value)) (h v v' : value) :
  NoDup (map fst cols) -> In (h, v) cols -> In (h, v') cols -> v = v'.
Proof.
  induction cols as [|[h0 v0] cols IH]; simpl; [tauto|].
  intros Hnd [E1|H1] [E2|H2]; inversion Hnd as [|? ? Hnin Hnd']; subst.
  - congruence.
  - inversion E1; subst. exfalso. apply Hnin.
    apply list_elem_of_In, in_map_iff. now exists (h, v').
  - inversion E2; subst. exfalso. apply Hnin.
    apply list_elem_of_In, in_map_iff. now exists (h, v).
  - now apply IH.
Qed.

(** With headers that are all different, the lookup gives the cell under
    the header wherever the column stands. *)
Lemma zip_get_in (key : str) (headers row : list value) (v : value) :
  NoDup (map fst (combine headers row)) ->
  (zip_get headers row key = Some v <-> In (VStr key, v) (combine headers row)).
Proof.
  intros Hnd. unfold zip_get. rewrite zip_get_fold.
  destruct (List.find _ (rev (combine headers row))) as [[h c]|] eqn:F.
  - apply find_some in F as [Hin Hh]. apply in_rev in Hin.
    apply header_is_text in Hh. simpl in Hh. subst h. simpl. split.
    + now intros [= <-].
    + intros Hin'. f_equal. exact (NoDup_fst_unique _ _ _ _ Hnd Hin Hin').
  - split; [discriminate|]. intros Hin. exfalso.
    apply in_rev in Hin.
    apply (find_none _ _ F) in Hin. simpl in Hin.
    now rewrite bool_decide_eq_true_2 in Hin.
Qed.

Lemma zip_get_permuted (key : str) (headers row headers' row' : list value) :
  NoDup (map fst (combine headers row)) ->
  Permutation (combine headers row) (combine headers' row') ->
  zip_get headers row key = zip_get headers' row' key.
Proof.
  intros Hnd Hp.
  assert (Hnd' : NoDup (map fst (combine headers' row'))).
  { pose proof (Permutation_map fst Hp) as Hp1. now rewrite <- Hp1. }
  destruct (zip_get headers row key) as [v|] eqn:E.
  - symmetry. apply zip_get_in; [exact Hnd'|].
    eapply Permutation_in; [exact Hp|]. now apply zip_get_in.
  - destruct (zip_get headers' row' key) as [v'|] eqn:E'; [|reflexivity].
    apply zip_get_in in E'; [|exact Hnd'].
    apply Permutation_sym in Hp. eapply Permutation_in in E'; [|exact Hp].
    apply zip_get_in in E'; [|exact Hnd]. congruence.
Qed.

End SheetExtras.

(** X16. The order of the columns of a sheet does not matter: when the
    headers are all different, moving whole columns (header and cell
    together) leaves the record read from a row as it was. *)
Theorem column_order_is_free (headers row headers' row' : list value) :
  NoDup (map fst (combine headers row)) ->
  Permutation (combine headers row) (combine headers' row') ->
  normalized headers row = normalized headers' row'.
Proof.
  intros Hnd Hp. unfold normalized.
  now rewrite !(zip_get_permuted _ headers row headers' row' Hnd Hp).
Qed.

(** X17. Reading back the sheet [save_to_excel] writes for a list of
    products gives, for a workbook that keeps the five header texts, these
    products in their order, each field being what the workbook stores for
    the value of the product, or for the empty text where the product has
    no such field; this holds for the month count too, since its column is
    there and the default ["0"] of the reader is not used. *)
Theorem saved_sheet_read_back (stored : value -> value)
    (product_list : list product) :
  map stored HEADERS = HEADERS ->
  reread stored product_list = map (filled stored) product_list.
Proof.
  intros H. unfold reread, sheet_rows, excel_data.
  rewrite map_cons, H, !map_map. apply map_ext.
  intros p. unfold normalized, filled, product_row, HEADERS.
  repeat f_equal; vm_compute; reflexivity.
Qed.

Lemma saved_sheet_read_back_witness :
  map empty_as_none HEADERS = HEADERS /\
  reread empty_as_none [milk (VInt 6); nowhere]
  = map (filled empty_as_none) [milk (VInt 6); nowhere].
Proof.
  assert (H : map empty_as_none HEADERS = HEADERS) by reflexivity.
  split; [exact H|].
  apply (saved_sheet_read_back empty_as_none [milk (VInt 6); nowhere] H).
Defined.

Lemma empty_months_cell_raises_witness :
  let headers := [VStr (lit "Product"); VStr (lit "Forecast Months");
                  VStr (lit "Country"); VStr (lit "Current Price")] in
  let row := [VStr (lit "Tea"); VNone; VStr (lit "US"); VInt 4] in
  let w1 := snd (@get_inflation_from_worldbank basic_latin worldbank_up
                   (lit "US") world0) in
  zip_get headers row (lit "Forecast Months") = Some VNone /\
  @item_keys basic_latin (normalized headers row) = Ok (lit "US", lit "USD") /\
  @get_inflation_from_worldbank basic_latin worldbank_up (lit "US") world0
    = ((JNum 4.1, JStr (lit "2023")), w1) /\
  JNum 4.1 <> JNull /\
  (Forecast_Months (normalized headers row) = Some VNone /\
   @forecast_item basic_latin exact_floats exact worldbank_up (normalized headers row) world0
   = (Raise TypeError, w1)).
Proof.
  intros headers row w1.
  assert (H1 : zip_get headers row (lit "Forecast Months") = Some VNone)
    by (vm_compute; reflexivity).
  assert (H2 : @item_keys basic_latin (normalized headers row)
               = Ok (lit "US", lit "USD")) by (vm_compute; reflexivity).
  assert (H3 : @get_inflation_from_worldbank basic_latin worldbank_up
                 (lit "US") world0
               = ((JNum 4.1, JStr (lit "2023")), w1))
    by (vm_compute; reflexivity).
  assert (H4 : JNum 4.1 <> JNull) by discriminate.
  split; [exact H1|]. split; [exact H2|]. split; [exact H3|]. split; [exact H4|].
  apply (@empty_months_cell_raises basic_latin exact_floats exact worldbank_up
           headers row world0 w1 _ _ _ _ H1 H2 H3 H4).
Defined.

Lemma column_order_is_free_witness :
  let headers := [VStr (lit "Product"); VStr (lit "Country")] in
  let row := [VStr (lit "Tea"); VStr (lit "US")] in
  let headers' := [VStr (lit "Country"); VStr (lit "Product")] in
  let row' := [VStr (lit "US"); VStr (lit "Tea")] in
  NoDup (map fst (combine headers row)) /\
  Permutation (combine headers row) (combine headers' row') /\
  normalized headers row = normalized headers' row'.
Proof.
  intros headers row headers' row'.
  assert (H1 : NoDup (map fst (combine headers row))).
  { simpl. repeat constructor.
    - intros H. apply list_elem_of_In in H. simpl in H.
      destruct H as [H|[]]. inversion H.
    - intros H. apply list_elem_of_In in H. destruct H. }
  assert (H2 : Permutation (combine headers row) (combine headers' row'))
    by (simpl; apply perm_swap).
  split; [exact H1|]. split; [exact H2|].
  apply (column_order_is_free headers row headers' row' H1 H2).
Defined.

(** ** The backup path of [save_to_excel] *)

Lemma rfind_from_spec (P : char -> bool) (s : str) :
  forall i found,
    rfind_from P s i found = found \/
    (i <= rfind_from P s i found < i + Z.of_nat (length s))%Z /\
    exists c, s !! Z.to_nat (rfind_from P s i found - i) = Some c /\ P c = true.
Proof.
  induction s as [|a s IH]; intros i found; simpl; [now left|].
  destruct (IH (i + 1)%Z (if P a then i else found)) as [E|(B & c & L & Hc)].
  - rewrite E. destruct (P a) eqn:Ha; [|now left].
    right. split; [lia|]. exists a. now rewrite Z.sub_diag.
  - right. split; [lia|]. exists c. split; [|exact Hc].
    replace (Z.to_nat (rfind_from P s (i + 1) (if P a then i else found) - i))
      with (S (Z.to_nat (rfind_from P s (i + 1) (if P a then i else found)
                         - (i + 1)))) by lia.
    exact L.
Qed.

Lemma rfind_found (P : char -> bool) (s : str) :
  (0 <= rfind P s)%Z ->
  exists c, s !! Z.to_nat (rfind P s) = Some c /\ P c = true.
Proof.
  unfold rfind. intros H.
  destruct (rfind_from_spec P s 0 (- 1)) as [E|(_ & c & L & Hc)]; [lia|].
  exists c. now rewrite Z.sub_0_r in L.
Qed.

Lemma rfind_lower (P : char -> bool) (s : str) : (- 1 <= rfind P s)%Z.
Proof.
  unfold rfind.
  destruct (rfind_from_spec P s 0 (- 1)) as [E|(B & _)]; lia.
Qed.

(** X18. The two parts [os.path.splitext] returns make up the path again,
    the extension is empty or starts with a dot, and therefore the JSON
    backup of [save_to_excel] is never written over the Excel file itself,
    on any platform. *)
Theorem backup_is_another_file (is_sep : char -> bool) (file_path : str) :
  fst (splitext is_sep file_path) ++ snd (splitext is_sep file_path)
    = file_path /\
  (snd (splitext is_sep file_path) = [] \/
   exists e, snd (splitext is_sep file_path) = ch "." :: e) /\
  backup_path is_sep file_path <> file_path.
Proof.
  assert (S : fst (splitext is_sep file_path) ++ snd (splitext is_sep file_path)
              = file_path /\
              (snd (splitext is_sep file_path) = [] \/
               exists e, snd (splitext is_sep file_path) = ch "." :: e)).
  { unfold splitext.
    destruct (rfind is_sep file_path <? rfind is_dot file_path)%Z eqn:L;
      [|simpl; rewrite app_nil_r; auto].
    destruct (existsb _ _); [|simpl; rewrite app_nil_r; auto].
    cbn [fst snd]. split; [apply take_drop|]. right.
    apply Z.ltb_lt in L. pose proof (rfind_lower is_sep file_path).
    destruct (rfind_found is_dot file_path ltac:(lia)) as (c & Hl & Hc).
    unfold is_dot in Hc. apply N.eqb_eq in Hc. subst c.
    exists (drop (S (Z.to_nat (rfind is_dot file_path))) file_path).
    now apply drop_S. }
  destruct S as [E X]. split; [exact E|]. split; [exact X|].
  unfold backup_path. intros H. rewrite <- E in H at 2.
  apply app_inv_head in H.
  destruct X as [X|[e X]]; rewrite X in H; discriminate.
Qed.

(** ** The dialog of main.py *)

Section DialogExtras.
Context {U : Unicode} {FL : Floats} {AR : Arithmetic}.
Variable fetch : nat -> str -> result json.

Lemma int_of_zero : py_int (VStr (lit "0")) = Ok 0%Z.
Proof.
  unfold py_int, int_of_str.
  replace (int_strip (lit "0")) with [ch "0"] by (vm_compute; reflexivity).
  replace (ch "0" =? ch "-")%N with false by (vm_compute; reflexivity).
  replace (ch "0" =? ch "+")%N with false by (vm_compute; reflexivity).
  cbn [int_digits].
  rewrite (decimal_ascii (ch "0")) by (vm_compute; reflexivity).
  reflexivity.
Qed.

(** X19. A product added in the dialog with the months box left blank
    reaches the loop of [main] with the month count 0 and with the country
    code stripped once and for all; for a source and a cache of rates that
    have a float and are at least -100 percent its forecast is made,
    whatever the other boxes hold: no power is taken but [x ** 0]. *)
Theorem blank_months_box_is_forecast (w : world)
    (name price months country currency : str) :
  sane_source fetch -> sane_cache w ->
  Forall (fun c => is_space c = true) months ->
  py_int (get (Forecast_Months (confirm name price months country currency))
              (VInt 0)) = Ok 0%Z /\
  (exists cur,
     item_keys (confirm name price months country currency)
     = Ok (strip country, cur)) /\
  exists f,
    fst (forecast_item fetch (confirm name price months country currency) w)
      = Ok f /\
    fc_Product f = VStr (strip name).
Proof.
  intros Hs Hc Hb.
  assert (M : py_int (get (Forecast_Months
                             (confirm name price months country currency))
                          (VInt 0)) = Ok 0%Z).
  { unfold confirm. cbn [Forecast_Months get].
    rewrite (strip_blank months Hb). apply int_of_zero. }
  assert (K : exists cur,
             item_keys (confirm name price months country currency)
             = Ok (strip country, cur)).
  { unfold item_keys, confirm. cbn [Country Currency get].
    unfold or_empty.
    assert (C : str_strip (if truthy (VStr (strip country))
                           then VStr (strip country) else VStr [])
                = Ok (strip country)).
    { destruct (strip country) as [|c t] eqn:E; [reflexivity|].
      cbn [truthy str_strip]. rewrite <- E. now rewrite strip_strip. }
    assert (D : forall s, exists u,
                 str_upper (if truthy (VStr s) then VStr s else VStr [])
                 = Ok u)
      by (intros [|? ?]; eexists; reflexivity).
    destruct (D (match upper (strip currency) with
                 | [] => lit "USD"
                 | c => c
                 end)) as [u Eu].
    rewrite C, Eu. eexists; reflexivity. }
  split; [exact M|]. split; [exact K|].
  assert (R : ready (confirm name price months country currency)).
  { split; [right; right; eexists; reflexivity|].
    split; [right; right; eexists; reflexivity|].
    split; [intros n [=]|].
    exists 0%Z. split; [exact M|lia]. }
  destruct (forecast_item_completes fetch _ w Hs Hc R)
    as (_ & [(f & F & P)|(_ & n & Hn & Hpos)]).
  - exists f. split; [exact F|exact P].
  - rewrite M in Hn. inversion Hn. lia.
Qed.

End DialogExtras.

Lemma blank_months_box_is_forecast_witness :
  @sane_source exact_floats exact worldbank_us_only /\
  @sane_cache exact_floats exact world0 /\
  Forall (fun c => is_space c = true) (lit "  ") /\
  (@py_int basic_latin
     (get (Forecast_Months
             (@confirm basic_latin (lit "Tea") (lit "4 EUR") (lit "  ")
                (lit " us ") (lit "eur")))
          (VInt 0)) = Ok 0%Z /\
   (exists cur,
      @item_keys basic_latin
        (@confirm basic_latin (lit "Tea") (lit "4 EUR") (lit "  ")
           (lit " us ") (lit "eur"))
      = Ok (strip (lit " us "), cur)) /\
   exists f,
     fst (@forecast_item basic_latin exact_floats exact worldbank_us_only
            (@confirm basic_latin (lit "Tea") (lit "4 EUR") (lit "  ")
               (lit " us ") (lit "eur")) world0)
       = Ok f /\
     fc_Product f = VStr (strip (lit "Tea"))).
Proof.
  assert (H3 : Forall (fun c => is_space c = true) (lit "  "))
    by (repeat constructor).
  split; [exact worldbank_us_only_sane|]. split; [exact world0_sane|].
  split; [exact H3|].
  apply (@blank_months_box_is_forecast basic_latin exact_floats exact
           worldbank_us_only world0
           (lit "Tea") (lit "4 EUR") (lit "  ") (lit " us ") (lit "eur")
           worldbank_us_only_sane world0_sane H3).
Defined.
